(** * Zephyr MCP server: tool registry, plugin manager, transports, metrics

    A shallow embedding of the Go sources

      - [internal/registry/registry.go]   (package registry)
      - [pkg/plugin] manager and interfaces (package plugin)
      - [pkg/mcp/transport/{http,stdio,factory}.go] (package transport)
      - [pkg/mcp/server/metrics.go]       (package server)

    Go maps are stdpp [gmap]s, Go [error] values are [option string]
    ([None] is [nil]), [int64]/[time.Duration] are [Z] with the wrap-around
    written out, and every method that mutates its receiver is a function
    from the receiver's state (and, where lifecycle hooks run, the history
    of hook calls) to the returned error together with the new state. *)

From stdpp Require Import gmap strings list fin_maps pretty.
From Stdlib Require Import ZArith Lia.

Open Scope string_scope.
Open Scope list_scope.
Open Scope stdpp_scope.

(** ** Go preliminaries *)

(** A Go [error]: [None] is [nil], [Some msg] carries [err.Error()]. *)
Definition error := option string.

Definition is_nil (e : error) : bool :=
  match e with None => true | Some _ => false end.

(** What a lifecycle hook can be observed to do: every call of a hook of a
    dynamically loaded plugin, and every [plugin.Open], is appended to the
    history. A plugin instance is identified by [plugin_id]. *)
Inductive Event :=
| EvOpen (path : string)
| EvInitialize (plugin_id : nat)
| EvShutdown (plugin_id : nat).

#[global] Instance Event_eq_dec : EqDecision Event.
Proof. solve_decision. Defined.

Definition World := list Event.

(** Code that runs hooks: a state monad over the history. *)
Definition M (A : Type) : Type := World -> A * World.

Definition ret {A} (a : A) : M A := fun w => (a, w).
Definition bind {A B} (m : M A) (k : A -> M B) : M B :=
  fun w => let '(a, w1) := m w in k a w1.

Declare Scope go_scope.
Delimit Scope go_scope with go.
Notation "x <- m ;; k" := (bind m (fun x => k))
  (at level 100, m at next level, right associativity) : go_scope.

(** ** package plugin: the two interfaces *)

(** [type MCPTool struct] *)
Record MCPTool := {
  mt_Name : string;
  mt_Description : string
}.

(** [type DynamicPlugin interface]. The results of the two lifecycle hooks
    may depend on everything that happened to the instance before (its
    private state is a function of the history); calling a hook is
    [call_Initialize] / [call_Shutdown] below. *)
Record DynamicPlugin := {
  dp_id : nat;
  dp_Name : string;
  dp_Version : string;
  dp_Description : string;
  dp_Initialize : World -> error;
  dp_Shutdown : World -> error
}.

(** [p.Initialize()] *)
Definition call_Initialize (p : DynamicPlugin) : M error :=
  fun w => (dp_Initialize p w, w ++ [EvInitialize (dp_id p)]).

(** [p.Shutdown()] *)
Definition call_Shutdown (p : DynamicPlugin) : M error :=
  fun w => (dp_Shutdown p w, w ++ [EvShutdown (dp_id p)]).

(** [type MCPToolPlugin interface]: an interface value is its method table. *)
Record MCPToolPlugin := {
  Name : string;
  Description : string;
  Version : string;
  Initialize : M error;
  Cleanup : M error
}.

(** [type PluginMetadata struct] (the manifest, plugin.json) *)
Record PluginMetadata := {
  md_Name : string;
  md_Version : string;
  md_Description : string;
  md_Author : string;
  md_APIVersion : string;
  md_EntryPoint : string;
  md_Dependencies : list string;
  md_Permissions : list string
}.

(** [type DynamicPluginAdapter struct] *)
Record DynamicPluginAdapter := {
  plugin : DynamicPlugin;
  metadata : PluginMetadata
}.

(** [func (dpa *DynamicPluginAdapter) Initialize() error]:
    "Plugin is already initialized during loading, so this is a no-op". *)
Definition dpa_Initialize (dpa : DynamicPluginAdapter) : M error :=
  ret None.

(** [func (dpa *DynamicPluginAdapter) Cleanup() error] *)
Definition dpa_Cleanup (dpa : DynamicPluginAdapter) : M error :=
  call_Shutdown (plugin dpa).

(** The adapter seen through the [MCPToolPlugin] interface: [Name],
    [Version] and [Description] delegate to the wrapped plugin. *)
Definition as_tool (dpa : DynamicPluginAdapter) : MCPToolPlugin := {|
  Name := dp_Name (plugin dpa);
  Description := dp_Description (plugin dpa);
  Version := dp_Version (plugin dpa);
  Initialize := dpa_Initialize dpa;
  Cleanup := dpa_Cleanup dpa
|}.

(** ** package registry *)

(** [type Registry struct]. [loops] is not a Go field: it counts the
    [periodicDiscoveryLoop] goroutines launched by [go] statements so far.
    [stopDiscovery] is the identity of the current stop channel and
    [closed] the channels closed so far. *)
Record Registry := {
  tools : gmap string MCPToolPlugin;
  discoveryEnabled : bool;
  scanInterval : Z;
  directories : list string;
  stopDiscovery : nat;
  closed : list nat;
  discoveryRunning : bool;
  loops : nat
}.

Definition set_tools (t : gmap string MCPToolPlugin) (r : Registry) : Registry :=
  {| tools := t; discoveryEnabled := discoveryEnabled r;
     scanInterval := scanInterval r; directories := directories r;
     stopDiscovery := stopDiscovery r; closed := closed r;
     discoveryRunning := discoveryRunning r; loops := loops r |}.

(** [func NewRegistry(cfg *config.PluginsConfig)] *)
Definition NewRegistry (enabled : bool) (interval : Z) (dirs : list string) : Registry :=
  {| tools := ∅; discoveryEnabled := enabled; scanInterval := interval;
     directories := dirs; stopDiscovery := 0; closed := [];
     discoveryRunning := false; loops := 0 |}.

(** [func (r *Registry) RegisterTool(tool mcpplugin.MCPToolPlugin) error].
    The argument is an interface value, [None] when it is [nil]. *)
Definition RegisterTool (tool : option MCPToolPlugin) (r : Registry)
  : M (error * Registry) :=
  match tool with
  | None => ret (Some "tool cannot be nil", r)
  | Some tool =>
    let name := Name tool in
    if decide (name = "") then ret (Some "tool name cannot be empty", r)
    else
      match tools r !! name with
      | Some _ => ret (Some ("tool already registered: " +:+ name), r)
      | None =>
        (err <- Initialize tool ;;
         match err with
         | Some e =>
           ret (Some ("failed to initialize tool " +:+ name +:+ ": " +:+ e), r)
         | None => ret (None, set_tools (<[name := tool]> (tools r)) r)
         end)%go
      end
  end.

(** [func (r *Registry) UnregisterTool(name string) error]: a cleanup
    failure is only logged. *)
Definition UnregisterTool (name : string) (r : Registry) : M (error * Registry) :=
  match tools r !! name with
  | None => ret (Some ("tool not found: " +:+ name), r)
  | Some tool =>
    (_ <- Cleanup tool ;;
     ret (None, set_tools (delete name (tools r)) r))%go
  end.

(** [func (r *Registry) GetTool(name string) (mcpplugin.MCPToolPlugin, error)] *)
Definition GetTool (name : string) (r : Registry) : option MCPToolPlugin * error :=
  match tools r !! name with
  | None => (None, Some ("tool not found: " +:+ name))
  | Some tool => (Some tool, None)
  end.

(** [func (r *Registry) StartPeriodicDiscovery() error] *)
Definition StartPeriodicDiscovery (r : Registry) : error * Registry :=
  if negb (discoveryEnabled r) then (None, r)
  else if discoveryRunning r then (Some "periodic discovery already running", r)
  else
    (None,
     {| tools := tools r; discoveryEnabled := discoveryEnabled r;
        scanInterval := scanInterval r; directories := directories r;
        stopDiscovery := stopDiscovery r; closed := closed r;
        discoveryRunning := true; loops := S (loops r) |}).

(** [func (r *Registry) StopPeriodicDiscovery() error] *)
Definition StopPeriodicDiscovery (r : Registry) : error * Registry :=
  if negb (discoveryRunning r) then (None, r)
  else
    (None,
     {| tools := tools r; discoveryEnabled := discoveryEnabled r;
        scanInterval := scanInterval r; directories := directories r;
        stopDiscovery := S (stopDiscovery r);
        closed := stopDiscovery r :: closed r;
        discoveryRunning := false; loops := loops r |}).

(** ** package plugin: the plugin manager *)

(** What [Lookup] on an opened unit can hand back for the symbol "Plugin":
    a [*DynamicPlugin] (possibly the nil pointer), a value whose dynamic
    type implements [DynamicPlugin], or a value of some other type, of
    which only the name printed by [%T] matters. A [*DynamicPlugin] that
    points to the nil interface is not represented. *)
Inductive Symbol :=
| SymPtr (p : option DynamicPlugin)
| SymDirect (p : DynamicPlugin)
| SymOther (go_type : string).

(** [*plugin.Plugin]: the symbol table of an opened unit; [inr] is the
    error of a failed lookup. *)
Record Handle := {
  Lookup : string -> Symbol + string
}.

(** The operating system as the manager sees it: [filepath.Join] and
    [plugin.Open] ([inr] is the error of a failed open). *)
Record Env := {
  filepath_Join : string -> string -> string;
  plugin_Open : string -> Handle + string
}.

(** [type LoadedPlugin struct] *)
Record LoadedPlugin := {
  lp_Metadata : PluginMetadata;
  lp_Plugin : DynamicPlugin;
  lp_LoadedAt : Z;
  lp_Directory : string;
  lp_Enabled : bool
}.

(** [type PluginManager struct]. [registry] is the registry the manager
    was built with ([None] when that interface value is nil); the registry
    is owned through this field, so its state is part of the manager's. *)
Record PluginManager := {
  plugins : gmap string LoadedPlugin;
  pluginPaths : gmap string string;
  registry : option Registry;
  baseDir : string;
  discovered : gmap string PluginMetadata;
  loaded : gmap string DynamicPluginAdapter
}.

Definition set_registry (r : option Registry) (pm : PluginManager) : PluginManager :=
  {| plugins := plugins pm; pluginPaths := pluginPaths pm; registry := r;
     baseDir := baseDir pm; discovered := discovered pm; loaded := loaded pm |}.

Definition set_loaded (l : gmap string DynamicPluginAdapter) (pm : PluginManager)
  : PluginManager :=
  {| plugins := plugins pm; pluginPaths := pluginPaths pm;
     registry := registry pm; baseDir := baseDir pm;
     discovered := discovered pm; loaded := l |}.

(** [func NewPluginManager(baseDir string, registry ToolRegistry)] *)
Definition NewPluginManager (dir : string) (r : option Registry) : PluginManager :=
  {| plugins := ∅; pluginPaths := ∅; registry := r; baseDir := dir;
     discovered := ∅; loaded := ∅ |}.

(** The "Validate required fields" part of [loadMetadata], applied to the
    manifest that [json.Unmarshal] produced. *)
Definition validateMetadata (m : PluginMetadata) : error :=
  if decide (md_Name m = "") then Some "plugin name is required"
  else if decide (md_Version m = "") then Some "plugin version is required"
  else if decide (md_EntryPoint m = "") then Some "plugin entry_point is required"
  else None.

(** One iteration of the scan loop of [DiscoverPlugins] for a directory
    [pluginDir] whose manifest passed [loadMetadata]. *)
Definition record_discovered (pluginDir : string) (m : PluginMetadata)
    (pm : PluginManager) : PluginManager :=
  {| plugins := plugins pm;
     pluginPaths := <[md_Name m := pluginDir]> (pluginPaths pm);
     registry := registry pm; baseDir := baseDir pm;
     discovered := <[md_Name m := m]> (discovered pm);
     loaded := loaded pm |}.

(** The type switch of [LoadPlugin]: first the assertion to a pointer to
    [DynamicPlugin], accepted when the pointer is not nil, then the
    assertion to [DynamicPlugin] itself. [inr] carries what [%T] prints
    for a symbol that passes neither. *)
Definition assert_DynamicPlugin (sym : Symbol) : DynamicPlugin + string :=
  match sym with
  | SymPtr (Some p) => inl p
  | SymPtr None => inr "*plugin.DynamicPlugin"
  | SymDirect p => inl p
  | SymOther t => inr t
  end.

(** The path handed to [plugin.Open]. *)
Definition so_path (env : Env) (pluginDir name : string) : string :=
  filepath_Join env pluginDir (name +:+ ".so").

(** [func (pm *PluginManager) LoadPlugin(name string) error] *)
Definition LoadPlugin (env : Env) (name : string) (pm : PluginManager)
  : M (error * PluginManager) :=
  match discovered pm !! name with
  | None => ret (Some ("plugin " +:+ name +:+ " not found"), pm)
  | Some pluginInfo =>
    match loaded pm !! name with
    | Some _ => ret (Some ("plugin " +:+ name +:+ " already loaded"), pm)
    | None =>
      match pluginPaths pm !! name with
      | None => ret (Some ("plugin directory for " +:+ name +:+ " not found"), pm)
      | Some pluginDir =>
        fun w =>
        let w := w ++ [EvOpen (so_path env pluginDir name)] in
        match plugin_Open env (so_path env pluginDir name) with
        | inr e => (Some ("failed to open plugin " +:+ name +:+ ": " +:+ e), pm, w)
        | inl p =>
          match Lookup p "Plugin" with
          | inr e =>
            (Some ("failed to find Plugin symbol in " +:+ name +:+ ": " +:+ e), pm, w)
          | inl sym =>
            match assert_DynamicPlugin sym with
            | inr T =>
              (Some ("plugin " +:+ name +:+
                     " does not implement DynamicPlugin interface (got " +:+
                     T +:+ ")"), pm, w)
            | inl dynamicPlugin =>
              (err <- call_Initialize dynamicPlugin ;;
               match err with
               | Some e =>
                 ret (Some ("failed to initialize plugin " +:+ name +:+ ": " +:+ e), pm)
               | None =>
                 let adapter :=
                   {| plugin := dynamicPlugin; metadata := pluginInfo |} in
                 match registry pm with
                 | None => ret (None, set_loaded (<[name := adapter]> (loaded pm)) pm)
                 | Some r =>
                   res <- RegisterTool (Some (as_tool adapter)) r ;;
                   let '(rerr, r') := res in
                   match rerr with
                   | Some e =>
                     _ <- call_Shutdown dynamicPlugin ;;
                     ret (Some ("failed to register plugin " +:+ name +:+
                                " with registry: " +:+ e),
                          set_registry (Some r') pm)
                   | None =>
                     let pm' := set_registry (Some r') pm in
                     ret (None, set_loaded (<[name := adapter]> (loaded pm')) pm')
                   end
                 end
               end)%go w
            end
          end
        end
      end
    end
  end.

(** [func (pm *PluginManager) UnloadPlugin(name string) error] *)
Definition UnloadPlugin (name : string) (pm : PluginManager)
  : M (error * PluginManager) :=
  match loaded pm !! name with
  | None => ret (Some ("plugin " +:+ name +:+ " not loaded"), pm)
  | Some loadedPlugin =>
    (pm1 <- match registry pm with
            | None => ret pm
            | Some r =>
              res <- UnregisterTool name r ;;
              ret (set_registry (Some (snd res)) pm)
            end ;;
     err <- call_Shutdown (plugin loadedPlugin) ;;
     match err with
     | Some e => ret (Some ("failed to shutdown plugin " +:+ name +:+ ": " +:+ e), pm1)
     | None => ret (None, set_loaded (delete name (loaded pm1)) pm1)
     end)%go
  end.

(** [func (pm *PluginManager) ReloadPlugin(name string) error] *)
Definition ReloadPlugin (env : Env) (name : string) (pm : PluginManager)
  : M (error * PluginManager) :=
  let isLoaded := bool_decide (is_Some (plugins pm !! name)) in
  if isLoaded then
    (res <- UnloadPlugin name pm ;;
     let '(err, pm1) := res in
     match err with
     | Some e => ret (Some ("failed to unload plugin for reload: " +:+ e), pm1)
     | None => LoadPlugin env name pm1
     end)%go
  else LoadPlugin env name pm.

(** ** package transport *)

Module transport.

(** [context.Context], as far as the adapters inspect it: whether [Err()]
    is non-nil. *)
Record Context := {
  canceled : bool
}.

(** [http.Server] as configured by the adapters: the address, the patterns
    mounted on the mux (with whether the handler is wrapped in the CORS
    middleware) and the timeouts in nanoseconds. *)
Record http_Server := {
  Addr : string;
  Handler : list (string * bool);
  ReadTimeout : Z;
  WriteTimeout : Z;
  IdleTimeout : Z
}.

(** The network as the adapters see it: [bind addr] is the error of
    binding the listener ([None]: the address is free), [Shutdown srv] the
    result of the graceful shutdown bounded by ten seconds. *)
Record Net := {
  bind : string -> error;
  Shutdown : http_Server -> error
}.

Definition ErrServerClosed : string := "http: Server closed".

(** [srv.ListenAndServe()] returns at once with the bind error when the
    listener cannot bind; otherwise ([None]) it serves, and returns
    [ErrServerClosed] only after a shutdown. *)
Definition ListenAndServe (net : Net) (srv : http_Server) : option string :=
  bind net (Addr srv).

(** [fmt.Sprintf("%s:%d", host, port)] *)
Definition addr_of (host : string) (port : Z) : string :=
  host +:+ ":" +:+ pretty port.

Definition second : Z := 1000000000.

(** *** http.go *)

Record HTTPConfig := {
  Host : string;
  Port : Z;
  Timeout : Z
}.

(** [type HTTPAdapter struct]. [launched] is not a Go field: it lists the
    servers for which [Start] launched the background goroutine. *)
Record HTTPAdapter := {
  config : HTTPConfig;
  httpServer : option http_Server;
  running : bool;
  launched : list http_Server
}.

Definition NewHTTPAdapter (cfg : HTTPConfig) : HTTPAdapter :=
  {| config := cfg; httpServer := None; running := false; launched := [] |}.

(** [func (h *HTTPAdapter) Start(ctx context.Context) error] *)
Definition HTTP_Start (ctx : Context) (h : HTTPAdapter) : error * HTTPAdapter :=
  if running h then (Some "HTTP transport already running", h)
  else
    let addr := addr_of (Host (config h)) (Port (config h)) in
    let srv := {| Addr := addr;
                  Handler := [("/mcp", false); ("/health", false); ("/", true)];
                  ReadTimeout := Timeout (config h);
                  WriteTimeout := Timeout (config h);
                  IdleTimeout := 60 * second |} in
    (None, {| config := config h; httpServer := Some srv; running := true;
              launched := srv :: launched h |}).

(** The goroutine of [Start] once [ListenAndServe] has returned [err]:
    the error is logged unless it is [ErrServerClosed], and the deferred
    function clears [running]. The first component is what was logged. *)
Definition HTTP_serve_returns (err : string) (h : HTTPAdapter)
  : list string * HTTPAdapter :=
  (if decide (err = ErrServerClosed) then [] else ["HTTP server error: " +:+ err],
   {| config := config h; httpServer := httpServer h; running := false;
      launched := launched h |}).

(** [func (h *HTTPAdapter) Stop() error] *)
Definition HTTP_Stop (net : Net) (h : HTTPAdapter) : error * HTTPAdapter :=
  match running h, httpServer h with
  | true, Some srv =>
    (Shutdown net srv,
     {| config := config h; httpServer := httpServer h; running := false;
        launched := launched h |})
  | _, _ => (None, h)
  end.

(** [func (h *HTTPAdapter) IsHealthy() bool] *)
Definition HTTP_IsHealthy (h : HTTPAdapter) : bool :=
  running h && bool_decide (is_Some (httpServer h)).

(** *** sse *)

Record SSEConfig := {
  sse_Host : string;
  sse_Port : Z;
  CORSEnabled : bool
}.

Record SSEAdapter := {
  sse_config : SSEConfig;
  sse_httpServer : option http_Server;
  sse_running : bool;
  sse_launched : list http_Server
}.

Definition NewSSEAdapter (cfg : SSEConfig) : SSEAdapter :=
  {| sse_config := cfg; sse_httpServer := None; sse_running := false;
     sse_launched := [] |}.

(** [func (s *SSEAdapter) Start(ctx context.Context) error] *)
Definition SSE_Start (ctx : Context) (s : SSEAdapter) : error * SSEAdapter :=
  if sse_running s then (Some "SSE transport already running", s)
  else
    let cors := CORSEnabled (sse_config s) in
    let addr := addr_of (sse_Host (sse_config s)) (sse_Port (sse_config s)) in
    let srv := {| Addr := addr;
                  Handler := [("/sse", cors); ("/message", cors); ("/health", false)];
                  ReadTimeout := 0; WriteTimeout := 0; IdleTimeout := 0 |} in
    (None, {| sse_config := sse_config s; sse_httpServer := Some srv;
              sse_running := true; sse_launched := srv :: sse_launched s |}).

Definition SSE_serve_returns (err : string) (s : SSEAdapter)
  : list string * SSEAdapter :=
  (if decide (err = ErrServerClosed) then [] else ["SSE server error: " +:+ err],
   {| sse_config := sse_config s; sse_httpServer := sse_httpServer s;
      sse_running := false; sse_launched := sse_launched s |}).

(** [func (s *SSEAdapter) Stop() error] *)
Definition SSE_Stop (net : Net) (s : SSEAdapter) : error * SSEAdapter :=
  match sse_running s, sse_httpServer s with
  | true, Some srv =>
    (Shutdown net srv,
     {| sse_config := sse_config s; sse_httpServer := sse_httpServer s;
        sse_running := false; sse_launched := sse_launched s |})
  | _, _ => (None, s)
  end.

(** [func (s *SSEAdapter) IsHealthy() bool] *)
Definition SSE_IsHealthy (s : SSEAdapter) : bool :=
  sse_running s && bool_decide (is_Some (sse_httpServer s)).

(** *** stdio.go *)

(** [type STDIOAdapter struct]. [cancel] tells whether the cancel function
    is non-nil; it cancels [ctx]. [listening] is not a Go field: it counts
    the goroutines launched by [Start]. *)
Record STDIOAdapter := {
  stdio_running : bool;
  ctx : option Context;
  cancel : bool;
  listening : nat
}.

Definition NewSTDIOAdapter : STDIOAdapter :=
  {| stdio_running := false; ctx := None; cancel := false; listening := 0 |}.

(** [func (s *STDIOAdapter) Start(ctx context.Context) error]: the child
    of [context.WithCancel(parent)] starts out canceled exactly when the
    parent is. *)
Definition STDIO_Start (parent : Context) (s : STDIOAdapter) : error * STDIOAdapter :=
  if stdio_running s then (Some "STDIO transport already running", s)
  else
    (None, {| stdio_running := true;
              ctx := Some {| canceled := canceled parent |};
              cancel := true; listening := S (listening s) |}).

(** [func (s *STDIOAdapter) Stop() error] *)
Definition STDIO_Stop (s : STDIOAdapter) : error * STDIOAdapter :=
  if negb (stdio_running s) then (None, s)
  else
    (None, {| stdio_running := false;
              ctx := if cancel s
                     then match ctx s with
                          | Some _ => Some {| canceled := true |}
                          | None => None
                          end
                     else ctx s;
              cancel := cancel s; listening := listening s |}).

(** [func (s *STDIOAdapter) IsHealthy() bool] *)
Definition STDIO_IsHealthy (s : STDIOAdapter) : bool :=
  stdio_running s &&
  match ctx s with
  | Some c => negb (canceled c)
  | None => false
  end.

(** *** adapter.go: the interface, as the sum of its implementations *)

Inductive TransportAdapter :=
| STDIO (s : STDIOAdapter)
| SSE (s : SSEAdapter)
| HTTP (h : HTTPAdapter).

Definition Start (c : Context) (a : TransportAdapter) : error * TransportAdapter :=
  match a with
  | STDIO s => let '(e, s') := STDIO_Start c s in (e, STDIO s')
  | SSE s => let '(e, s') := SSE_Start c s in (e, SSE s')
  | HTTP h => let '(e, h') := HTTP_Start c h in (e, HTTP h')
  end.

Definition Stop (net : Net) (a : TransportAdapter) : error * TransportAdapter :=
  match a with
  | STDIO s => let '(e, s') := STDIO_Stop s in (e, STDIO s')
  | SSE s => let '(e, s') := SSE_Stop net s in (e, SSE s')
  | HTTP h => let '(e, h') := HTTP_Stop net h in (e, HTTP h')
  end.

Definition Name (a : TransportAdapter) : string :=
  match a with
  | STDIO _ => "stdio"
  | SSE _ => "sse"
  | HTTP _ => "http"
  end.

Definition IsHealthy (a : TransportAdapter) : bool :=
  match a with
  | STDIO s => STDIO_IsHealthy s
  | SSE s => SSE_IsHealthy s
  | HTTP h => HTTP_IsHealthy h
  end.

(** The [running] field of whichever adapter it is. *)
Definition is_running (a : TransportAdapter) : bool :=
  match a with
  | STDIO s => stdio_running s
  | SSE s => sse_running s
  | HTTP h => running h
  end.

(** [func CreateTransport(protocol string, mcpServer, cfg)] of factory.go,
    with the two typed option blocks of the configuration. *)
Definition CreateTransport (protocol : string) (sse : SSEConfig) (http : HTTPConfig)
  : TransportAdapter + string :=
  if decide (protocol = "stdio") then inl (STDIO NewSTDIOAdapter)
  else if decide (protocol = "sse") then inl (SSE (NewSSEAdapter sse))
  else if decide (protocol = "http") then inl (HTTP (NewHTTPAdapter http))
  else inr ("unsupported transport protocol: " +:+ protocol).

End transport.

(** ** package server: metrics.go *)

Module server.

Local Open Scope Z_scope.

(** [int64] arithmetic wraps around. *)
Definition wrap64 (z : Z) : Z := (z + 2 ^ 63) `mod` 2 ^ 64 - 2 ^ 63.

Definition in_int64 (z : Z) : Prop := - 2 ^ 63 <= z < 2 ^ 63.

(** Integer division of Go: truncated, and a run-time panic ([None]) on a
    zero divisor. *)
Definition go_div (a b : Z) : option Z :=
  if decide (b = 0) then None else Some (wrap64 (Z.quot a b)).

(** [type MetricsCollector struct]; durations are nanoseconds. *)
Record MetricsCollector := {
  startTime : Z;
  requestCount : Z;
  errorCount : Z;
  toolCallCount : gmap string Z;
  avgResponseTime : Z;
  responseTimes : list Z;
  maxResponseTime : Z
}.

(** [func NewMetricsCollector()] at time [now]. *)
Definition NewMetricsCollector (now : Z) : MetricsCollector :=
  {| startTime := now; requestCount := 0; errorCount := 0;
     toolCallCount := ∅; avgResponseTime := 0; responseTimes := [];
     maxResponseTime := 0 |}.

(** The loop [for _, rt := range m.responseTimes { total += rt }]. *)
Definition total_of (rts : list Z) : Z :=
  foldl (fun total rt => wrap64 (total + rt)) 0 rts.

(** [func (m *MetricsCollector) RecordRequest(duration, toolName, isError)];
    [None] is the division panic. *)
Definition RecordRequest (duration : Z) (toolName : string) (isError : bool)
    (m : MetricsCollector) : option MetricsCollector :=
  let requestCount' := wrap64 (requestCount m + 1) in
  let errorCount' := if isError then wrap64 (errorCount m + 1) else errorCount m in
  let toolCallCount' :=
    if decide (toolName = "") then toolCallCount m
    else <[toolName := wrap64 (default 0 (toolCallCount m !! toolName) + 1)]>
           (toolCallCount m) in
  let appended := responseTimes m ++ [duration] in
  let responseTimes' :=
    if decide (1000 < length appended)%nat then drop 1 appended else appended in
  let maxResponseTime' :=
    if decide (maxResponseTime m < duration) then duration else maxResponseTime m in
  match go_div (total_of responseTimes') (Z.of_nat (length responseTimes')) with
  | None => None
  | Some avg =>
    Some {| startTime := startTime m; requestCount := requestCount';
            errorCount := errorCount'; toolCallCount := toolCallCount';
            avgResponseTime := avg; responseTimes := responseTimes';
            maxResponseTime := maxResponseTime' |}
  end.

(** A request as the dispatch layer records it. *)
Record Request := {
  duration : Z;
  toolName : string;
  isError : bool
}.

(** A sequence of [RecordRequest] calls, in order. *)
Fixpoint record_all (rs : list Request) (m : MetricsCollector)
  : option MetricsCollector :=
  match rs with
  | [] => Some m
  | r :: rs' =>
    match RecordRequest (duration r) (toolName r) (isError r) m with
    | None => None
    | Some m' => record_all rs' m'
    end
  end.

End server.

(** ** The rest of package registry *)

(** [func (r *Registry) ListTools() []mcpplugin.MCPToolPlugin]. Go ranges
    over a map in an order it does not specify; the model ranges in the
    order of [map_to_list]. *)
Definition ListTools (r : Registry) : list MCPToolPlugin :=
  (map_to_list (tools r)).*2.

(** [func (r *Registry) getToolNames() []string] *)
Definition getToolNames (r : Registry) : list string :=
  (map_to_list (tools r)).*1.

(** [func (r *Registry) DiscoverTools() error]: "now a no-op". *)
Definition DiscoverTools (r : Registry) : error * Registry := (None, r).

(** The loop [for name, tool := range r.tools] of [Shutdown]: every
    [Cleanup] runs, its error is only logged. *)
Fixpoint cleanup_all (l : list (string * MCPToolPlugin)) : M unit :=
  match l with
  | [] => ret tt
  | (_, tool) :: l' => (_ <- Cleanup tool ;; cleanup_all l')%go
  end.

(** [func (r *Registry) Shutdown() error] *)
Definition Registry_Shutdown (r : Registry) : M (error * Registry) :=
  let r1 := snd (StopPeriodicDiscovery r) in
  (_ <- cleanup_all (map_to_list (tools r1)) ;;
   ret (None, set_tools ∅ r1))%go.

(** ** The rest of the plugin manager *)

(** [os.Stat(path)] as [DiscoverPlugins] reads it: no error, an error for
    which [os.IsNotExist] holds, or any other error. *)
Inductive StatResult := StatFound | StatNotExist | StatFailed.

(** [os.DirEntry] *)
Record DirEntry := {
  de_Name : string;
  de_IsDir : bool
}.

(** The file system as discovery sees it. [ReadDir] is what the directory
    holds once [MkdirAll] has run; [json_Unmarshal] gives the manifest as
    far as it was filled in, with the error of the decoder. *)
Record FS := {
  MkdirAll : string -> error;
  ReadDir : string -> list DirEntry + string;
  Stat : string -> StatResult;
  ReadFile : string -> string + string;
  json_Unmarshal : string -> PluginMetadata * error
}.

(** The zero value of [PluginMetadata]. *)
Definition zero_metadata : PluginMetadata :=
  {| md_Name := ""; md_Version := ""; md_Description := ""; md_Author := "";
     md_APIVersion := ""; md_EntryPoint := ""; md_Dependencies := [];
     md_Permissions := [] |}.

(** [func (pm *PluginManager) loadMetadata(path string) (PluginMetadata, error)] *)
Definition loadMetadata (fs : FS) (path : string) : PluginMetadata * error :=
  match ReadFile fs path with
  | inr e => (zero_metadata, Some e)
  | inl data =>
    match json_Unmarshal fs data with
    | (metadata, Some e) => (metadata, Some e)
    | (metadata, None) =>
      if decide (md_Name metadata = "") then (metadata, Some "plugin name is required")
      else if decide (md_Version metadata = "")
      then (metadata, Some "plugin version is required")
      else if decide (md_EntryPoint metadata = "")
      then (metadata, Some "plugin entry_point is required")
      else (metadata, None)
    end
  end.

(** The body of the scan loop of [DiscoverPlugins] for one entry. *)
Definition scan_entry (env : Env) (fs : FS) (pm : PluginManager) (entry : DirEntry)
  : PluginManager :=
  if negb (de_IsDir entry) then pm
  else
    let pluginDir := filepath_Join env (baseDir pm) (de_Name entry) in
    let metadataPath := filepath_Join env pluginDir "plugin.json" in
    match Stat fs metadataPath with
    | StatNotExist => pm
    | _ =>
      match loadMetadata fs metadataPath with
      | (_, Some _) => pm
      | (metadata, None) => record_discovered pluginDir metadata pm
      end
    end.

(** [func (pm *PluginManager) DiscoverPlugins() error] *)
Definition DiscoverPlugins (env : Env) (fs : FS) (pm : PluginManager)
  : error * PluginManager :=
  match MkdirAll fs (baseDir pm) with
  | Some e => (Some ("failed to create plugins directory: " +:+ e), pm)
  | None =>
    match ReadDir fs (baseDir pm) with
    | inr e => (Some ("failed to read plugins directory: " +:+ e), pm)
    | inl entries => (None, foldl (scan_entry env fs) pm entries)
    end
  end.

(** [type PluginStatus struct]; [ps_LoadedAt] is 0 for the zero time. *)
Record PluginStatus := {
  ps_Name : string;
  ps_Version : string;
  ps_Description : string;
  ps_Directory : string;
  ps_Discovered : bool;
  ps_Loaded : bool;
  ps_Enabled : bool;
  ps_LoadedAt : Z
}.

(** The status [ListPlugins] builds for one entry of [pluginPaths]. *)
Definition status_of (pm : PluginManager) (name path : string) : PluginStatus :=
  match plugins pm !! name with
  | Some loadedPlugin =>
    {| ps_Name := name; ps_Version := md_Version (lp_Metadata loadedPlugin);
       ps_Description := md_Description (lp_Metadata loadedPlugin);
       ps_Directory := path; ps_Discovered := true; ps_Loaded := true;
       ps_Enabled := lp_Enabled loadedPlugin;
       ps_LoadedAt := lp_LoadedAt loadedPlugin |}
  | None =>
    {| ps_Name := name; ps_Version := ""; ps_Description := "";
       ps_Directory := path; ps_Discovered := true; ps_Loaded := false;
       ps_Enabled := false; ps_LoadedAt := 0 |}
  end.

(** [func (pm *PluginManager) ListPlugins() map[string]PluginStatus] *)
Definition ListPlugins (pm : PluginManager) : gmap string PluginStatus :=
  map_imap (fun name path => Some (status_of pm name path)) (pluginPaths pm).

(** [func (pm *PluginManager) GetPlugin(name string) ( *LoadedPlugin, bool)] *)
Definition GetPlugin (name : string) (pm : PluginManager) : option LoadedPlugin :=
  plugins pm !! name.

(** [strings.Join(elems, sep)] *)
Fixpoint strings_Join (elems : list string) (sep : string) : string :=
  match elems with
  | [] => ""
  | [e] => e
  | e :: rest => e +:+ sep +:+ strings_Join rest sep
  end.

(** The loop of [LoadAllPlugins] over the names in the order [names]:
    the collected error lines and the manager it ends with. *)
Fixpoint load_each (env : Env) (names : list string) (pm : PluginManager)
  : M (list string * PluginManager) :=
  match names with
  | [] => ret ([], pm)
  | name :: rest =>
    (res <- LoadPlugin env name pm ;;
     let '(err, pm1) := res in
     res' <- load_each env rest pm1 ;;
     let '(errors, pm2) := res' in
     ret (match err with
          | Some e => ("plugin " +:+ name +:+ ": " +:+ e) :: errors
          | None => errors
          end, pm2))%go
  end.

(** [LoadAllPlugins] when the range over [pm.discovered] yields [names]. *)
Definition LoadAllPlugins_in (env : Env) (names : list string) (pm : PluginManager)
  : M (error * PluginManager) :=
  (res <- load_each env names pm ;;
   let '(errors, pm') := res in
   ret (match errors with
        | [] => None
        | _ => Some ("failed to load some plugins: " +:+ strings_Join errors "; ")
        end, pm'))%go.

(** [func (pm *PluginManager) LoadAllPlugins() error], ranging in the
    order of [map_to_list]. *)
Definition LoadAllPlugins (env : Env) (pm : PluginManager) : M (error * PluginManager) :=
  LoadAllPlugins_in env (map_to_list (discovered pm)).*1 pm.

(** ** Vocabulary of the properties *)

(** The manifest [info] of [name] is known, [name] is not loaded, its
    directory is [dir], and the unit at [so_path env dir name] opens and
    exports a "Plugin" symbol that passes the type switch as [d]. *)
Definition resolves (env : Env) (pm : PluginManager) (name : string)
    (info : PluginMetadata) (dir : string) (d : DynamicPlugin) : Prop :=
  discovered pm !! name = Some info ∧
  loaded pm !! name = None ∧
  pluginPaths pm !! name = Some dir ∧
  ∃ h sym, plugin_Open env (so_path env dir name) = inl h ∧
           Lookup h "Plugin" = inl sym ∧
           assert_DynamicPlugin sym = inl d.

(** How many [Initialize] calls a stretch of history holds. *)
Fixpoint count_Initialize (l : list Event) : nat :=
  match l with
  | [] => 0
  | EvInitialize _ :: l' => S (count_Initialize l')
  | _ :: l' => count_Initialize l'
  end.

(** The manager with its [discovered] map replaced. *)
Definition set_discovered (m : gmap string PluginMetadata) (pm : PluginManager)
  : PluginManager :=
  {| plugins := plugins pm; pluginPaths := pluginPaths pm;
     registry := registry pm; baseDir := baseDir pm;
     discovered := m; loaded := loaded pm |}.

(** The history once the registry has been asked to drop [name]: the
    first half of [UnloadPlugin]. *)
Definition after_unregister (name : string) (pm : PluginManager) (w : World) : World :=
  match registry pm with
  | None => w
  | Some r => snd (UnregisterTool name r w)
  end.

(** What [Start] reports on an adapter that is running. *)
Definition already_running (a : transport.TransportAdapter) : string :=
  match a with
  | transport.STDIO _ => "STDIO transport already running"
  | transport.SSE _ => "SSE transport already running"
  | transport.HTTP _ => "HTTP transport already running"
  end.

(** The exact sum of a list of durations. *)
Definition sum_of (l : list Z) : Z := foldr Z.add 0%Z l.

(** The last [n] elements of a list (all of it when it is shorter). *)
Definition last_n {A} (n : nat) (l : list A) : list A :=
  drop (length l - n) l.

(** The claim's arithmetic mean: [avg] is the mean of [l] when [avg]
    times the number of elements is their sum. *)
Definition is_mean_of (avg : Z) (l : list Z) : Prop :=
  (avg * Z.of_nat (length l))%Z = sum_of l.

(** ** Sample plugins, managers and networks *)

(** The echo plugin of the scenario: both hooks always succeed. *)
Definition echo : DynamicPlugin :=
  {| dp_id := 1; dp_Name := "echo"; dp_Version := "1.0.0";
     dp_Description := "returns its text argument";
     dp_Initialize := fun _ => None; dp_Shutdown := fun _ => None |}.

Definition echo_manifest : PluginMetadata :=
  {| md_Name := "echo"; md_Version := "1.0.0";
     md_Description := "returns its text argument"; md_Author := "";
     md_APIVersion := ""; md_EntryPoint := "echo";
     md_Dependencies := []; md_Permissions := [] |}.

(** A file system holding exactly [plugins/echo/echo.so], which exports
    [echo] as a pointer to a [DynamicPlugin] variable. *)
Definition echo_env : Env :=
  {| filepath_Join := fun d f => d +:+ "/" +:+ f;
     plugin_Open := fun path =>
       if decide (path = "plugins/echo/echo.so")
       then inl {| Lookup := fun s =>
                     if decide (s = "Plugin") then inl (SymPtr (Some echo))
                     else inr ("symbol " +:+ s +:+ " not found") |}
       else inr "no such file" |}.

(** The manager after discovery found [plugins/echo], over registry [r]. *)
Definition echo_discovered (r : Registry) : PluginManager :=
  record_discovered "plugins/echo" echo_manifest
    (NewPluginManager "plugins" (Some r)).

(** A registry in which some built-in tool already owns the name "echo". *)
Definition builtin_echo : MCPToolPlugin :=
  {| Name := "echo"; Description := "built in"; Version := "0";
     Initialize := ret None; Cleanup := ret None |}.

Definition echo_taken : Registry :=
  set_tools {[ "echo" := builtin_echo ]} (NewRegistry false 0 []).

(** The echo plugin, loaded through [LoadPlugin] after discovery. *)
Definition echo_loaded : PluginManager :=
  snd (fst (LoadPlugin echo_env "echo" (echo_discovered (NewRegistry false 0 [])) [])).

(** A manifest that names its unit by [entry_point], in a directory whose
    only unit sits at that entry point. *)
Definition relay_manifest : PluginMetadata :=
  {| md_Name := "relay"; md_Version := "2.1.0";
     md_Description := "forwards a call"; md_Author := "";
     md_APIVersion := ""; md_EntryPoint := "bin/relay-plugin.so";
     md_Dependencies := []; md_Permissions := [] |}.

Definition relay : DynamicPlugin :=
  {| dp_id := 2; dp_Name := "relay"; dp_Version := "2.1.0";
     dp_Description := "forwards a call";
     dp_Initialize := fun _ => None; dp_Shutdown := fun _ => None |}.

Definition relay_env : Env :=
  {| filepath_Join := fun d f => d +:+ "/" +:+ f;
     plugin_Open := fun path =>
       if decide (path = "plugins/relay/bin/relay-plugin.so")
       then inl {| Lookup := fun s =>
                     if decide (s = "Plugin") then inl (SymDirect relay)
                     else inr ("symbol " +:+ s +:+ " not found") |}
       else inr "no such file" |}.

Definition relay_discovered : PluginManager :=
  record_discovered "plugins/relay" relay_manifest
    (NewPluginManager "plugins" (Some (NewRegistry false 0 []))).

(** A plugin whose [Shutdown] always fails, loaded through [LoadPlugin]. *)
Definition stuck : DynamicPlugin :=
  {| dp_id := 3; dp_Name := "stuck"; dp_Version := "0.3.0";
     dp_Description := "holds a device";
     dp_Initialize := fun _ => None;
     dp_Shutdown := fun _ => Some "device busy" |}.

Definition stuck_manifest : PluginMetadata :=
  {| md_Name := "stuck"; md_Version := "0.3.0";
     md_Description := "holds a device"; md_Author := "";
     md_APIVersion := ""; md_EntryPoint := "stuck.so";
     md_Dependencies := []; md_Permissions := [] |}.

Definition stuck_env : Env :=
  {| filepath_Join := fun d f => d +:+ "/" +:+ f;
     plugin_Open := fun path =>
       if decide (path = "plugins/stuck/stuck.so")
       then inl {| Lookup := fun s =>
                     if decide (s = "Plugin") then inl (SymPtr (Some stuck))
                     else inr ("symbol " +:+ s +:+ " not found") |}
       else inr "no such file" |}.

Definition stuck_loaded : PluginManager :=
  snd (fst (LoadPlugin stuck_env "stuck"
              (record_discovered "plugins/stuck" stuck_manifest
                 (NewPluginManager "plugins" (Some (NewRegistry false 0 []))))
              [])).

Definition busy_config : transport.HTTPConfig :=
  {| transport.Host := "localhost"; transport.Port := 26842;
     transport.Timeout := 30 * transport.second |}.

(** The SSE adapter's configuration for the same address. *)
Definition busy_sse_config : transport.SSEConfig :=
  {| transport.sse_Host := "localhost"; transport.sse_Port := 26842;
     transport.CORSEnabled := true |}.

Definition address_in_use : string :=
  "listen tcp 127.0.0.1:26842: bind: address already in use".

(** A network on which another process holds localhost:26842. *)
Definition busy_net : transport.Net :=
  {| transport.bind := fun addr =>
       if decide (addr = "localhost:26842") then Some address_in_use else None;
     transport.Shutdown := fun _ => None |}.

Definition background : transport.Context := {| transport.canceled := false |}.

(** A successful call of the echo tool that took [d] nanoseconds. *)
Definition took (d : Z) : server.Request :=
  {| server.duration := d; server.toolName := "echo"; server.isError := false |}.

(** ** package config *)

Module config.

(** [type Config struct] and its parts; durations are nanoseconds. The
    per-tool settings of [PluginsConfig.Tools] are left out: none of the
    functions below reads them. *)
Record ServerConfig := { Name : string; Version : string; Debug : bool }.

Record STDIOConfig := { BufferSize : Z }.

Record SSEConfig := { sse_Port : Z; sse_Host : string; CORSEnabled : bool }.

Record HTTPConfig := { http_Port : Z; http_Host : string; Timeout : Z }.

Record TransportConfig := {
  Protocol : string;
  STDIO : STDIOConfig;
  SSE : SSEConfig;
  HTTP : HTTPConfig
}.

Record DiscoveryConfig := {
  Enabled : bool;
  Directories : list string;
  ScanInterval : Z
}.

Record LoggingConfig := { Level : string; Format : string; Output : string; File : string }.

Record RateLimitConfig := { rl_Enabled : bool; RequestsPerMinute : Z }.

Record TimeoutConfig := { Request : Z; Shutdown : Z }.

Record SecurityConfig := { RateLimit : RateLimitConfig; SecTimeout : TimeoutConfig }.

Record MonitoringConfig := {
  mon_Enabled : bool;
  mon_Port : Z;
  mon_Host : string;
  Metrics : string;
  Health : string;
  UpdateInterval : string
}.

Record Config := {
  Server : ServerConfig;
  Transport : TransportConfig;
  Monitoring : MonitoringConfig;
  Discovery : DiscoveryConfig;
  Logging : LoggingConfig;
  Security : SecurityConfig
}.

(** [func validate(config *Config) error] *)
Definition validate (c : Config) : error :=
  let protocol := Protocol (Transport c) in
  if negb (bool_decide (protocol = "stdio") || bool_decide (protocol = "sse")
           || bool_decide (protocol = "http"))
  then Some ("invalid transport protocol: " +:+ protocol +:+
             " (must be one of: stdio, sse, http)")
  else if bool_decide (sse_Port (SSE (Transport c)) < 1)%Z
          || bool_decide (65535 < sse_Port (SSE (Transport c)))%Z
  then Some ("invalid SSE port: " +:+ pretty (sse_Port (SSE (Transport c))) +:+
             " (must be 1-65535)")
  else if bool_decide (http_Port (HTTP (Transport c)) < 1)%Z
          || bool_decide (65535 < http_Port (HTTP (Transport c)))%Z
  then Some ("invalid HTTP port: " +:+ pretty (http_Port (HTTP (Transport c))) +:+
             " (must be 1-65535)")
  else
    let level := Level (Logging c) in
    if negb (bool_decide (level = "debug") || bool_decide (level = "info")
             || bool_decide (level = "warn") || bool_decide (level = "error"))
    then Some ("invalid log level: " +:+ level +:+
               " (must be one of: debug, info, warn, error)")
    else if bool_decide (Request (SecTimeout (Security c)) <= 0)%Z
    then Some "request timeout must be positive"
    else if bool_decide (Shutdown (SecTimeout (Security c)) <= 0)%Z
    then Some "shutdown timeout must be positive"
    else None.

(** [func defaultConfig() *Config] *)
Definition defaultConfig : Config :=
  {| Server := {| Name := "zephyr-mcp-server"; Version := "1.0.0"; Debug := false |};
     Transport :=
       {| Protocol := "stdio";
          STDIO := {| BufferSize := 4096 |};
          SSE := {| sse_Port := 26841; sse_Host := "localhost"; CORSEnabled := true |};
          HTTP := {| http_Port := 26842; http_Host := "localhost";
                     Timeout := 30 * 1000000000 |} |};
     Monitoring :=
       {| mon_Enabled := true; mon_Port := 26843; mon_Host := "localhost";
          Metrics := "/metrics"; Health := "/health"; UpdateInterval := "1m" |};
     Discovery :=
       {| Enabled := true; Directories := ["./plugins"];
          ScanInterval := 60 * 1000000000 |};
     Logging := {| Level := "info"; Format := "json"; Output := "stdout"; File := "" |};
     Security :=
       {| RateLimit := {| rl_Enabled := true; RequestsPerMinute := 100 |};
          SecTimeout := {| Request := 10 * 1000000000; Shutdown := 30 * 1000000000 |} |} |}.

End config.

(** ** factory.go *)

(** What the factory needs of the language: the [float64] values that an
    options bag may hold with their conversion [int(f)], and
    [time.ParseDuration] ([inr] is its error). *)
Record Runtime := {
  float64 : Type;
  int_of_float : float64 -> Z;
  time_ParseDuration : string -> Z + string
}.

(** An [interface{}] value of an options bag, by its dynamic type. *)
Inductive Any (rt : Runtime) :=
| AString (s : string)
| AInt (n : Z)
| AFloat (f : float64 rt)
| ABool (b : bool)
| AOther.

Arguments AString {rt} s.
Arguments AInt {rt} n.
Arguments AFloat {rt} f.
Arguments ABool {rt} b.
Arguments AOther {rt}.

(** [func getStringOption(options, key, defaultValue string) string] *)
Definition getStringOption {rt} (options : gmap string (Any rt))
    (key defaultValue : string) : string :=
  match options !! key with
  | Some (AString str) => str
  | _ => defaultValue
  end.

(** [func getIntOption(options, key string, defaultValue int) int] *)
Definition getIntOption {rt} (options : gmap string (Any rt))
    (key : string) (defaultValue : Z) : Z :=
  match options !! key with
  | Some (AInt num) => num
  | Some (AFloat num) => int_of_float rt num
  | _ => defaultValue
  end.

(** [func getBoolOption(options, key string, defaultValue bool) bool] *)
Definition getBoolOption {rt} (options : gmap string (Any rt))
    (key : string) (defaultValue : bool) : bool :=
  match options !! key with
  | Some (ABool b) => b
  | _ => defaultValue
  end.

(** [func getDurationOption(options, key string, defaultValue time.Duration)] *)
Definition getDurationOption {rt} (options : gmap string (Any rt))
    (key : string) (defaultValue : Z) : Z :=
  match options !! key with
  | Some (AString str) =>
    match time_ParseDuration rt str with
    | inl duration => duration
    | inr _ => defaultValue
    end
  | _ => defaultValue
  end.

(** [func CreateTransportFromConfig(transportConfig TransportConfig, mcpServer)] *)
Definition CreateTransportFromConfig {rt} (protocol : string)
    (options : gmap string (Any rt)) : transport.TransportAdapter + string :=
  if decide (protocol = "stdio") then inl (transport.STDIO transport.NewSTDIOAdapter)
  else if decide (protocol = "sse") then
    inl (transport.SSE (transport.NewSSEAdapter
      {| transport.sse_Host := getStringOption options "host" "localhost";
         transport.sse_Port := getIntOption options "port" 26841;
         transport.CORSEnabled := getBoolOption options "cors_enabled" true |}))
  else if decide (protocol = "http") then
    inl (transport.HTTP (transport.NewHTTPAdapter
      {| transport.Host := getStringOption options "host" "localhost";
         transport.Port := getIntOption options "port" 26842;
         transport.Timeout := getDurationOption options "timeout" (30 * transport.second) |}))
  else inr ("unsupported transport protocol: " +:+ protocol).

(** [func (f *Factory) CreateTransport(transportConfig TransportConfig)];
    [mcpServer] tells whether the factory's server was set. *)
Definition Factory_CreateTransport {rt} (mcpServer : bool) (protocol : string)
    (options : gmap string (Any rt)) : transport.TransportAdapter + string :=
  if negb mcpServer then inr "MCP server not set in factory"
  else CreateTransportFromConfig protocol options.

(** [func (f *Factory) SupportedProtocols() []string] *)
Definition SupportedProtocols : list string := ["stdio"; "sse"; "http"].

(** [func CreateTransportFromFullConfig(cfg *config.Config, mcpServer)] *)
Definition CreateTransportFromFullConfig (cfg : config.Config)
  : transport.TransportAdapter + string :=
  transport.CreateTransport (config.Protocol (config.Transport cfg))
    {| transport.sse_Host := config.sse_Host (config.SSE (config.Transport cfg));
       transport.sse_Port := config.sse_Port (config.SSE (config.Transport cfg));
       transport.CORSEnabled := config.CORSEnabled (config.SSE (config.Transport cfg)) |}
    {| transport.Host := config.http_Host (config.HTTP (config.Transport cfg));
       transport.Port := config.http_Port (config.HTTP (config.Transport cfg));
       transport.Timeout := config.Timeout (config.HTTP (config.Transport cfg)) |}.

(** ** package app: shutting down *)

(** [config.Watcher] as [App.Shutdown] uses it: whether it is running and
    what closing its file watcher returns. *)
Record Watcher := {
  w_running : bool;
  w_Close : error
}.

(** [func (w *Watcher) Stop() error] *)
Definition Watcher_Stop (wt : Watcher) : error * Watcher :=
  if negb (w_running wt) then (None, wt)
  else
    (match w_Close wt with
     | Some e => Some ("failed to close file watcher: " +:+ e)
     | None => None
     end,
     {| w_running := false; w_Close := w_Close wt |}).

(** [type App struct] once [New] has set it up. The registry that [App],
    the plugin manager and the MCP server all point to is the one held in
    [app_pluginManager]; [app_canceled] tells whether the root context
    was canceled. *)
Record App := {
  app_configWatcher : option Watcher;
  app_transport : transport.TransportAdapter;
  app_pluginManager : PluginManager;
  app_canceled : bool
}.

(** The loop [for name := range pluginStatus] of [App.Shutdown], when the
    range yields [names]: the errors of the unloads, in order. *)
Fixpoint unload_each (names : list string) (pm : PluginManager)
  : M (list string * PluginManager) :=
  match names with
  | [] => ret ([], pm)
  | name :: rest =>
    (res <- UnloadPlugin name pm ;;
     let '(err, pm1) := res in
     res' <- unload_each rest pm1 ;;
     let '(errors, pm2) := res' in
     ret (match err with
          | Some e => e :: errors
          | None => errors
          end, pm2))%go
  end.

(** [func (s *Server) Stop() error]: the registry is shut down, an error
    of that is only logged. *)
Definition Server_Stop (r : option Registry) : M (error * option Registry) :=
  match r with
  | None => ret (None, None)
  | Some r =>
    (res <- Registry_Shutdown r ;; ret (None, Some (snd res)))%go
  end.

(** [func (a *App) Shutdown() error], when the range over the plugin
    status yields [names]. *)
Definition App_Shutdown_in (net : transport.Net) (names : list string) (a : App)
  : M (error * App) :=
  let '(werr, watcher) :=
    match app_configWatcher a with
    | Some wt => let '(e, wt') := Watcher_Stop wt in (e, Some wt')
    | None => (None, None)
    end in
  let '(terr, adapter) := transport.Stop net (app_transport a) in
  (res <- unload_each names (app_pluginManager a) ;;
   let '(perrs, pm1) := res in
   res' <- Server_Stop (registry pm1) ;;
   let '(serr, r') := res' in
   let shutdownErrors :=
     match werr with Some e => [e] | None => [] end ++
     match terr with Some e => [e] | None => [] end ++
     perrs ++
     match serr with Some e => [e] | None => [] end in
   ret (match shutdownErrors with
        | [] => None
        | _ => Some ("shutdown had " +:+ pretty (length shutdownErrors) +:+ " errors")
        end,
        {| app_configWatcher := watcher; app_transport := adapter;
           app_pluginManager := set_registry r' pm1; app_canceled := true |}))%go.

(** [func (a *App) Shutdown() error], ranging in the order of
    [map_to_list]. *)
Definition App_Shutdown (net : transport.Net) (a : App) : M (error * App) :=
  App_Shutdown_in net (map_to_list (ListPlugins (app_pluginManager a))).*1 a.

(** [func (a *App) setupPlugins() error]: the error returned, the manager
    it leaves, and the names it logs as loaded tools (those whose status
    says loaded). A failure of [LoadAllPlugins] is only logged. *)
Definition setupPlugins (env : Env) (fs : FS) (pm : PluginManager)
  : M (error * PluginManager * list string) :=
  match DiscoverPlugins env fs pm with
  | (Some e, pm') => ret (Some e, pm', [])
  | (None, pm1) =>
    (res <- LoadAllPlugins env pm1 ;;
     let pm2 := snd res in
     let loadedPlugins :=
       (map_to_list (filter (λ kv, ps_Loaded kv.2 = true) (ListPlugins pm2))).*1 in
     ret (None, pm2, loadedPlugins))%go
  end.

(** ** More vocabulary *)

(** The manifest that scanning the directory entry [entry] of [base]
    records, if any. *)
Definition manifest_in (env : Env) (fs : FS) (base : string) (entry : DirEntry)
  : option PluginMetadata :=
  if de_IsDir entry then
    match Stat fs (filepath_Join env (filepath_Join env base (de_Name entry)) "plugin.json") with
    | StatNotExist => None
    | _ =>
      match loadMetadata fs
              (filepath_Join env (filepath_Join env base (de_Name entry)) "plugin.json") with
      | (m, None) => Some m
      | (_, Some _) => None
      end
    end
  else None.

(** What holds of every manager the program builds: nothing is in
    [plugins]; a name has a directory exactly when it has a manifest; a
    manifest is filed under its own name and has its required fields; and
    what is loaded was discovered. *)
Definition consistent (pm : PluginManager) : Prop :=
  plugins pm = ∅ ∧
  (∀ k, is_Some (pluginPaths pm !! k) ↔ is_Some (discovered pm !! k)) ∧
  (∀ k m, discovered pm !! k = Some m → md_Name m = k ∧ validateMetadata m = None) ∧
  (∀ k, is_Some (loaded pm !! k) → is_Some (discovered pm !! k)).

(** How many of the requests failed. *)
Fixpoint count_errors (rs : list server.Request) : nat :=
  match rs with
  | [] => 0
  | r :: rs' => (if server.isError r then 1 else 0) + count_errors rs'
  end.

(** How many of the requests went to the tool [t]. *)
Fixpoint count_tool (t : string) (rs : list server.Request) : nat :=
  match rs with
  | [] => 0
  | r :: rs' => (if decide (server.toolName r = t) then 1 else 0) + count_tool t rs'
  end.

(** The largest of the durations, and at least zero. *)
Definition max_of (ds : list Z) : Z := foldl Z.max 0%Z ds.

(** ** More samples *)

(** The echo plugin behind its adapter, as [LoadPlugin] registers it. *)
Definition echo_adapter : DynamicPluginAdapter :=
  {| plugin := echo; metadata := echo_manifest |}.

(** A registry with discovery enabled, as the default configuration
    builds it. *)
Definition watching : Registry := NewRegistry true (60 * 1000000000) ["./plugins"].

(** A plugin whose manifest calls it "clock" while its [Name()] answers
    "current_time". *)
Definition clock : DynamicPlugin :=
  {| dp_id := 4; dp_Name := "current_time"; dp_Version := "1.2.0";
     dp_Description := "tells the time";
     dp_Initialize := fun _ => None; dp_Shutdown := fun _ => None |}.

Definition clock_manifest : PluginMetadata :=
  {| md_Name := "clock"; md_Version := "1.2.0";
     md_Description := "tells the time"; md_Author := "";
     md_APIVersion := ""; md_EntryPoint := "clock.so";
     md_Dependencies := []; md_Permissions := [] |}.

Definition clock_env : Env :=
  {| filepath_Join := fun d f => d +:+ "/" +:+ f;
     plugin_Open := fun path =>
       if decide (path = "plugins/clock/clock.so")
       then inl {| Lookup := fun s =>
                     if decide (s = "Plugin") then inl (SymPtr (Some clock))
                     else inr ("symbol " +:+ s +:+ " not found") |}
       else inr "no such file" |}.

Definition clock_discovered : PluginManager :=
  record_discovered "plugins/clock" clock_manifest
    (NewPluginManager "plugins" (Some (NewRegistry false 0 []))).

(** Two directories that both declare the plugin "dup", a file, and a
    directory without a manifest. *)
Definition dup_manifest (version : string) : PluginMetadata :=
  {| md_Name := "dup"; md_Version := version; md_Description := "";
     md_Author := ""; md_APIVersion := ""; md_EntryPoint := "dup.so";
     md_Dependencies := []; md_Permissions := [] |}.

Definition dup_fs : FS :=
  {| MkdirAll := fun _ => None;
     ReadDir := fun _ =>
       inl [ {| de_Name := "README.md"; de_IsDir := false |};
             {| de_Name := "first"; de_IsDir := true |};
             {| de_Name := "second"; de_IsDir := true |};
             {| de_Name := "third"; de_IsDir := true |} ];
     Stat := fun path =>
       if decide (path = "plugins/third/plugin.json") then StatNotExist else StatFound;
     ReadFile := fun path => inl path;
     json_Unmarshal := fun data =>
       if decide (data = "plugins/first/plugin.json")
       then (dup_manifest "1.0.0", None)
       else (dup_manifest "2.0.0", None) |}.

(** [cfg] with its transport protocol replaced. *)
Definition with_protocol (protocol : string) (cfg : config.Config) : config.Config :=
  {| config.Server := config.Server cfg;
     config.Transport :=
       {| config.Protocol := protocol;
          config.STDIO := config.STDIO (config.Transport cfg);
          config.SSE := config.SSE (config.Transport cfg);
          config.HTTP := config.HTTP (config.Transport cfg) |};
     config.Monitoring := config.Monitoring cfg;
     config.Discovery := config.Discovery cfg;
     config.Logging := config.Logging cfg;
     config.Security := config.Security cfg |}.

(** A runtime whose floats are integers and whose durations are written
    as plain numbers of seconds, up to nine. *)
Definition toy_runtime : Runtime :=
  {| float64 := Z; int_of_float := fun f => f;
     time_ParseDuration := fun s =>
       if decide (s = "5s") then inl (5 * 1000000000)%Z
       else inr ("time: invalid duration " +:+ s) |}.

(** An options bag that gives the port as a string. *)
Definition port_as_string : gmap string (Any toy_runtime) :=
  {[ "port" := AString "8080" ]}.

(** * Properties *)

(** ** Tool registry *)

Section RegistryFacts.

Implicit Types (r : Registry) (w : World) (t : MCPToolPlugin).

Lemma tools_set_tools m r : tools (set_tools m r) = m.
Proof. reflexivity. Qed.

Lemma set_tools_id r : set_tools (tools r) r = r.
Proof. by destruct r. Qed.

(** Running [RegisterTool] on a non-nil tool with a fresh, non-empty name
    comes down to the tool's own [Initialize]. *)
Lemma RegisterTool_fresh t r w :
  Name t ≠ "" → tools r !! Name t = None →
  RegisterTool (Some t) r w =
    match Initialize t w with
    | (Some e, w') =>
      (Some ("failed to initialize tool " +:+ Name t +:+ ": " +:+ e), r, w')
    | (None, w') => (None, set_tools (<[Name t := t]> (tools r)) r, w')
    end.
Proof.
  intros Hne Hfresh. unfold RegisterTool. cbn zeta.
  destruct (decide (Name t = "")) as [|_]; [done|].
  rewrite Hfresh. unfold bind. destruct (Initialize t w) as [[e|] w']; reflexivity.
Qed.

Lemma RegisterTool_unnamed t r w :
  Name t = "" →
  RegisterTool (Some t) r w = (Some "tool name cannot be empty", r, w).
Proof.
  intros Hempty. unfold RegisterTool. cbn zeta. by rewrite decide_True.
Qed.

Lemma RegisterTool_taken t t0 r w :
  Name t ≠ "" → tools r !! Name t = Some t0 →
  RegisterTool (Some t) r w = (Some ("tool already registered: " +:+ Name t), r, w).
Proof.
  intros Hne Htaken. unfold RegisterTool. cbn zeta.
  destruct (decide (Name t = "")) as [|_]; [done|]. by rewrite Htaken.
Qed.

(** A failed registration returns the registry it was given. *)
Lemma RegisterTool_failure_unchanged tool r w e r' w' :
  RegisterTool tool r w = (Some e, r', w') → r' = r.
Proof.
  destruct tool as [t|]; [|by inversion 1].
  destruct (decide (Name t = "")) as [Hempty|Hne].
  { rewrite RegisterTool_unnamed by done. by inversion 1. }
  destruct (tools r !! Name t) as [t0|] eqn:Hlk.
  - rewrite (RegisterTool_taken t t0) by done. by inversion 1.
  - rewrite RegisterTool_fresh by done.
    destruct (Initialize t w) as [[e0|] w0]; by inversion 1.
Qed.

(** The adapter's [Initialize] never fails and never touches the plugin,
    so registering an adapter leaves the history alone. *)
Lemma RegisterTool_adapter_world dpa r w :
  snd (RegisterTool (Some (as_tool dpa)) r w) = w.
Proof.
  unfold RegisterTool. cbn zeta.
  destruct (decide (Name (as_tool dpa) = "")); [done|].
  destruct (tools r !! Name (as_tool dpa)); reflexivity.
Qed.

End RegistryFacts.

(** C1. [RegisterTool] rejects a nil tool and a tool with an empty name,
    rejects a name that is already registered with the duplicate-name
    error and without running any hook, and otherwise runs the tool's
    [Initialize] hook and inserts the tool exactly when the hook succeeds.
    Hence an entry that is registered is never replaced, no other name is
    touched, the catalogue grows by one entry on success, and a failed
    call returns the registry unchanged. *)
Theorem RegisterTool_contract (tool : option MCPToolPlugin) (r : Registry) (w : World) :
  ∃ err r' w',
    RegisterTool tool r w = (err, r', w') ∧
    match tool with
    | None => err = Some "tool cannot be nil" ∧ w' = w
    | Some t =>
      if decide (Name t = "") then err = Some "tool name cannot be empty" ∧ w' = w
      else
        match tools r !! Name t with
        | Some _ => err = Some ("tool already registered: " +:+ Name t) ∧ w' = w
        | None =>
          w' = snd (Initialize t w) ∧
          match fst (Initialize t w) with
          | Some e =>
            err = Some ("failed to initialize tool " +:+ Name t +:+ ": " +:+ e)
          | None => err = None ∧ tools r' !! Name t = Some t
          end
        end
    end ∧
    (∀ k t0, tools r !! k = Some t0 → tools r' !! k = Some t0) ∧
    (∀ k, tools r' !! k ≠ tools r !! k → err = None ∧ Some k = Name <$> tool) ∧
    size (tools r') = (if is_nil err then S (size (tools r)) else size (tools r)) ∧
    (err ≠ None → r' = r).
Proof.
  destruct tool as [t|]; cycle 1.
  { eexists _, _, _. split; [reflexivity|]. cbn. repeat split; eauto; done. }
  destruct (decide (Name t = "")) as [Hempty|Hne].
  { eexists _, _, _. split; [by apply RegisterTool_unnamed|].
    cbn. repeat split; eauto; done. }
  destruct (tools r !! Name t) as [t0|] eqn:Hlk.
  { eexists _, _, _. split; [by apply (RegisterTool_taken t t0)|].
    cbn. repeat split; eauto; done. }
  rewrite RegisterTool_fresh by done.
  destruct (Initialize t w) as [[e|] w1] eqn:Hinit.
  { eexists _, _, _. split; [reflexivity|]. cbn. repeat split; eauto; done. }
  eexists _, _, _. split; [reflexivity|]. cbn.
  split; [by rewrite lookup_insert_eq|].
  split.
  { intros k t0 Hk. destruct (decide (k = Name t)) as [->|Hk'].
    - congruence.
    - by rewrite lookup_insert_ne. }
  split.
  { intros k Hk. split; [done|].
    destruct (decide (Name t = k)) as [->|Hk']; [done|].
    by rewrite lookup_insert_ne in Hk. }
  split; [by apply map_size_insert_None | done].
Qed.

(** C8. With discovery disabled [StartPeriodicDiscovery] succeeds and
    leaves the registry as it was: no loop is launched and the running
    flag is not set. The only error it ever returns is "periodic discovery
    already running", and only with discovery enabled (and running). *)
Theorem StartPeriodicDiscovery_disabled_noop (r : Registry) :
  (if discoveryEnabled r then True
   else StartPeriodicDiscovery r = (None, r) ∧
        loops (snd (StartPeriodicDiscovery r)) = loops r ∧
        discoveryRunning (snd (StartPeriodicDiscovery r)) = discoveryRunning r) ∧
  (∀ e r', StartPeriodicDiscovery r = (Some e, r') →
     e = "periodic discovery already running" ∧
     discoveryEnabled r = true ∧ discoveryRunning r = true ∧ r' = r).
Proof.
  unfold StartPeriodicDiscovery.
  destruct (discoveryEnabled r) eqn:Hen; cbn.
  - split; [exact I|]. intros e r'.
    destruct (discoveryRunning r); inversion 1; subst; auto.
  - split; [auto|]. intros e r'. inversion 1.
Qed.

(** ** Plugin manager *)

(** Closes a goal that compares two histories and counts the calls. *)
Ltac by_history :=
  cbn; rewrite ?app_nil_r, <- ?app_assoc; cbn;
  first [ reflexivity | split; [reflexivity | cbn; lia] ].

Section ManagerFacts.

Variable env : Env.
Implicit Types (pm : PluginManager) (w : World) (name dir : string).

(** [LoadPlugin] from the point where the plugin value is in hand. *)
Lemma LoadPlugin_resolved pm name info dir d w :
  resolves env pm name info dir d →
  LoadPlugin env name pm w =
    let w0 := w ++ [EvOpen (so_path env dir name)] in
    let w1 := w0 ++ [EvInitialize (dp_id d)] in
    let adapter := {| plugin := d; metadata := info |} in
    match dp_Initialize d w0 with
    | Some e => (Some ("failed to initialize plugin " +:+ name +:+ ": " +:+ e), pm, w1)
    | None =>
      match registry pm with
      | None => (None, set_loaded (<[name := adapter]> (loaded pm)) pm, w1)
      | Some r =>
        match RegisterTool (Some (as_tool adapter)) r w1 with
        | (Some e, r', w2) =>
          (Some ("failed to register plugin " +:+ name +:+ " with registry: " +:+ e),
           set_registry (Some r') pm, w2 ++ [EvShutdown (dp_id d)])
        | (None, r', w2) =>
          (None, set_loaded (<[name := adapter]> (loaded pm))
                   (set_registry (Some r') pm), w2)
        end
      end
    end.
Proof.
  intros (Hdisc & Hfree & Hdir & h & sym & Hopen & Hsym & Hd).
  unfold LoadPlugin. rewrite Hdisc, Hfree, Hdir, Hopen, Hsym, Hd.
  cbn zeta. unfold bind, call_Initialize.
  destruct (dp_Initialize d _) as [e|]; [reflexivity|].
  destruct (registry pm) as [r|]; [|reflexivity].
  destruct (RegisterTool _ r _) as [[[e|] r'] w2]; reflexivity.
Qed.

(** Whatever [LoadPlugin] does, it only adds to the history. *)
Lemma LoadPlugin_extends pm name w :
  ∃ tail, snd (LoadPlugin env name pm w) = w ++ tail ∧ (count_Initialize tail ≤ 1)%nat.
Proof.
  unfold LoadPlugin.
  destruct (discovered pm !! name) as [info|]; [|exists []; by_history].
  destruct (loaded pm !! name); [exists []; by_history|].
  destruct (pluginPaths pm !! name) as [dir|]; [|exists []; by_history].
  destruct (plugin_Open env _) as [h|e]; [|eexists [_]; by_history].
  destruct (Lookup h "Plugin") as [sym|e]; [|eexists [_]; by_history].
  destruct (assert_DynamicPlugin sym) as [d|T]; [|eexists [_]; by_history].
  unfold bind, call_Initialize.
  destruct (dp_Initialize d _) as [e|]; [eexists [_; _]; by_history|].
  destruct (registry pm) as [r|]; [|eexists [_; _]; by_history].
  pose proof (RegisterTool_adapter_world {| plugin := d; metadata := info |} r
    ((w ++ [EvOpen (so_path env dir name)]) ++ [EvInitialize (dp_id d)])) as Hw.
  destruct (RegisterTool _ r _) as [[[e|] r'] w2]; cbn in Hw; subst w2.
  - eexists [_; _; _]; by_history.
  - eexists [_; _]; by_history.
Qed.

(** None of the manager's operations writes the [plugins] map. *)
Lemma LoadPlugin_plugins pm name w :
  plugins (snd (fst (LoadPlugin env name pm w))) = plugins pm.
Proof.
  unfold LoadPlugin.
  destruct (discovered pm !! name) as [info|]; [|done].
  destruct (loaded pm !! name); [done|].
  destruct (pluginPaths pm !! name) as [dir|]; [|done].
  destruct (plugin_Open env _) as [h|e]; [|done].
  destruct (Lookup h "Plugin") as [sym|e]; [|done].
  destruct (assert_DynamicPlugin sym) as [d|T]; [|done].
  unfold bind, call_Initialize.
  destruct (dp_Initialize d _) as [e|]; [done|].
  destruct (registry pm) as [r|]; [|done].
  destruct (RegisterTool _ r _) as [[[e|] r'] w2]; done.
Qed.

Lemma UnloadPlugin_plugins pm name w :
  plugins (snd (fst (UnloadPlugin name pm w))) = plugins pm.
Proof.
  unfold UnloadPlugin.
  destruct (loaded pm !! name) as [a|]; [|done].
  unfold bind, call_Shutdown.
  destruct (registry pm) as [r|].
  - destruct (UnregisterTool name r w) as [[e r'] w1]. cbn.
    destruct (dp_Shutdown _ _); done.
  - cbn. destruct (dp_Shutdown _ _); done.
Qed.

End ManagerFacts.

(** *** Loading *)

Lemma echo_resolves r :
  resolves echo_env (echo_discovered r) "echo" echo_manifest "plugins/echo" echo.
Proof.
  repeat split; try reflexivity.
  eexists _, (SymPtr (Some echo)). repeat split; reflexivity.
Defined.

Lemma set_registry_id pm r : registry pm = Some r → set_registry (Some r) pm = pm.
Proof. destruct pm; cbn; by intros ->. Qed.

(** C5. When the plugin's [Initialize] succeeded and [RegisterTool] then
    fails, [LoadPlugin] calls the plugin's [Shutdown] (the last thing it
    does, after the registration attempt), returns the registration error,
    and leaves the manager as it was, with no loaded entry for the name. *)
Theorem LoadPlugin_rolls_back_on_register_failure
    (env : Env) (pm : PluginManager) (name : string) (info : PluginMetadata)
    (dir : string) (d : DynamicPlugin) (r r' : Registry) (w w2 : World)
    (e : string) :
  resolves env pm name info dir d →
  dp_Initialize d (w ++ [EvOpen (so_path env dir name)]) = None →
  registry pm = Some r →
  RegisterTool (Some (as_tool {| plugin := d; metadata := info |})) r
    (w ++ [EvOpen (so_path env dir name); EvInitialize (dp_id d)])
    = (Some e, r', w2) →
  LoadPlugin env name pm w =
    (Some ("failed to register plugin " +:+ name +:+ " with registry: " +:+ e),
     pm,
     w ++ [EvOpen (so_path env dir name); EvInitialize (dp_id d);
           EvShutdown (dp_id d)]) ∧
  loaded pm !! name = None.
Proof.
  intros Hres Hinit Hreg Hfail.
  rewrite (LoadPlugin_resolved env pm name info dir d w Hres). cbn zeta.
  rewrite Hinit, Hreg.
  replace ((w ++ [EvOpen (so_path env dir name)]) ++ [EvInitialize (dp_id d)])
    with (w ++ [EvOpen (so_path env dir name); EvInitialize (dp_id d)])
    by (by rewrite <- app_assoc).
  pose proof (RegisterTool_adapter_world {| plugin := d; metadata := info |} r
    (w ++ [EvOpen (so_path env dir name); EvInitialize (dp_id d)])) as Hw.
  rewrite Hfail in Hw |- *. cbn in Hw. subst w2.
  apply RegisterTool_failure_unchanged in Hfail as ->.
  rewrite set_registry_id by done.
  split; [by rewrite <- app_assoc | by destruct Hres as (_ & Hfree & _)].
Qed.

Lemma LoadPlugin_rolls_back_on_register_failure_witness :
  LoadPlugin echo_env "echo" (echo_discovered echo_taken) [] =
    (Some ("failed to register plugin " +:+ "echo" +:+ " with registry: " +:+
           "tool already registered: echo"),
     echo_discovered echo_taken,
     [] ++ [EvOpen (so_path echo_env "plugins/echo" "echo");
            EvInitialize (dp_id echo); EvShutdown (dp_id echo)]) ∧
  loaded (echo_discovered echo_taken) !! "echo" = None.
Proof.
  apply (LoadPlugin_rolls_back_on_register_failure echo_env
           (echo_discovered echo_taken) "echo" echo_manifest "plugins/echo" echo
           echo_taken echo_taken []
           [EvOpen "plugins/echo/echo.so"; EvInitialize 1]).
  - apply echo_resolves.
  - reflexivity.
  - reflexivity.
  - reflexivity.
Defined.

(** C9. The adapter's [Initialize] returns success and leaves the history
    untouched (the wrapped plugin is not called); its [Cleanup] is the
    plugin's [Shutdown]. So one [LoadPlugin] adds at most one [Initialize]
    call to the history, and exactly one, of the loaded plugin, whenever
    the plugin value was resolved: the manager's own call, which
    [RegisterTool] does not repeat. *)
Theorem LoadPlugin_initializes_once
    (env : Env) (pm : PluginManager) (name : string) (w : World) :
  (∀ dpa w0, Initialize (as_tool dpa) w0 = (None, w0)) ∧
  (∀ dpa w0, Cleanup (as_tool dpa) w0 = call_Shutdown (plugin dpa) w0) ∧
  ∃ tail,
    snd (LoadPlugin env name pm w) = w ++ tail ∧
    (count_Initialize tail ≤ 1)%nat ∧
    (∀ info dir d, resolves env pm name info dir d →
       count_Initialize tail = 1%nat ∧ EvInitialize (dp_id d) ∈ tail).
Proof.
  split; [reflexivity|]. split; [reflexivity|].
  destruct (LoadPlugin_extends env pm name w) as (tail & Htail & Hle).
  exists tail. split; [done|]. split; [done|].
  intros info dir d Hres.
  rewrite (LoadPlugin_resolved env pm name info dir d w Hres) in Htail.
  cbn zeta in Htail.
  assert (∃ rest, tail = EvOpen (so_path env dir name) :: EvInitialize (dp_id d) :: rest)
    as [rest ->].
  { destruct (dp_Initialize d _) as [e|].
    { exists []. cbn in Htail. rewrite <- app_assoc in Htail.
      by apply app_inv_head in Htail. }
    destruct (registry pm) as [r|]; cycle 1.
    { exists []. cbn in Htail. rewrite <- app_assoc in Htail.
      by apply app_inv_head in Htail. }
    pose proof (RegisterTool_adapter_world {| plugin := d; metadata := info |} r
      ((w ++ [EvOpen (so_path env dir name)]) ++ [EvInitialize (dp_id d)])) as Hw.
    destruct (RegisterTool _ r _) as [[[e|] r'] w2]; cbn in Hw, Htail;
      rewrite Hw, <- !app_assoc in Htail; apply app_inv_head in Htail;
      subst tail; eexists; reflexivity. }
  cbn in Hle |- *. split; [lia|]. set_solver.
Qed.

(** *** Which unit [LoadPlugin] opens *)

(** C6, as stated, fails: the manifest of "relay" is valid and discovered,
    the unit exists at its [entry_point] inside the plugin's directory,
    and yet [LoadPlugin] asks for [plugins/relay/relay.so] and reports
    that it cannot open the plugin. *)
Lemma LoadPlugin_ignores_entry_point :
  validateMetadata relay_manifest = None ∧
  discovered relay_discovered !! "relay" = Some relay_manifest ∧
  loaded relay_discovered !! "relay" = None ∧
  (∃ h, plugin_Open relay_env
          (filepath_Join relay_env "plugins/relay" (md_EntryPoint relay_manifest))
        = inl h ∧ Lookup h "Plugin" = inl (SymDirect relay)) ∧
  LoadPlugin relay_env "relay" relay_discovered [] =
    (Some "failed to open plugin relay: no such file", relay_discovered,
     [EvOpen "plugins/relay/relay.so"]).
Proof.
  split; [reflexivity|]. split; [reflexivity|]. split; [reflexivity|].
  split; [eexists; split; reflexivity | reflexivity].
Qed.

(** C6, amended. For a discovered name that is not loaded, [LoadPlugin]
    opens the unit [<name>.so] inside the plugin's directory, whatever the
    manifest's [entry_point] says (the outcome does not depend on the
    manifest at all), looks up the one symbol "Plugin", and goes on to
    initialize the plugin when the symbol is a non-nil pointer to a
    [DynamicPlugin] or a [DynamicPlugin] value; any other symbol is
    refused with the type-mismatch error and nothing changes. *)
Theorem LoadPlugin_opens_name_so
    (env : Env) (pm : PluginManager) (name dir : string)
    (info : PluginMetadata) (w : World) :
  discovered pm !! name = Some info →
  loaded pm !! name = None →
  pluginPaths pm !! name = Some dir →
  (∃ tail, snd (LoadPlugin env name pm w)
           = w ++ EvOpen (filepath_Join env dir (name +:+ ".so")) :: tail) ∧
  (∀ info',
     let pm' := set_discovered (<[name := info']> (discovered pm)) pm in
     fst (fst (LoadPlugin env name pm' w)) = fst (fst (LoadPlugin env name pm w)) ∧
     snd (LoadPlugin env name pm' w) = snd (LoadPlugin env name pm w)) ∧
  (∀ h, plugin_Open env (filepath_Join env dir (name +:+ ".so")) = inl h →
     match Lookup h "Plugin" with
     | inr e =>
       LoadPlugin env name pm w =
         (Some ("failed to find Plugin symbol in " +:+ name +:+ ": " +:+ e), pm,
          w ++ [EvOpen (filepath_Join env dir (name +:+ ".so"))])
     | inl (SymPtr (Some d)) | inl (SymDirect d) =>
       resolves env pm name info dir d ∧
       ∃ tail, snd (LoadPlugin env name pm w)
               = w ++ EvOpen (filepath_Join env dir (name +:+ ".so"))
                   :: EvInitialize (dp_id d) :: tail
     | inl (SymPtr None) =>
       LoadPlugin env name pm w =
         (Some ("plugin " +:+ name +:+
                " does not implement DynamicPlugin interface (got " +:+
                "*plugin.DynamicPlugin" +:+ ")"), pm,
          w ++ [EvOpen (filepath_Join env dir (name +:+ ".so"))])
     | inl (SymOther T) =>
       LoadPlugin env name pm w =
         (Some ("plugin " +:+ name +:+
                " does not implement DynamicPlugin interface (got " +:+
                T +:+ ")"), pm,
          w ++ [EvOpen (filepath_Join env dir (name +:+ ".so"))])
     end).
Proof.
  intros Hdisc Hfree Hdir.
  assert (∀ h sym d, plugin_Open env (so_path env dir name) = inl h →
            Lookup h "Plugin" = inl sym → assert_DynamicPlugin sym = inl d →
            resolves env pm name info dir d ∧
            ∃ tail, snd (LoadPlugin env name pm w)
                    = w ++ EvOpen (so_path env dir name)
                        :: EvInitialize (dp_id d) :: tail) as Hgo.
  { intros h sym d Hopen Hsym Hd.
    assert (resolves env pm name info dir d) as Hres.
    { repeat split; try done. by exists h, sym. }
    split; [done|].
    rewrite (LoadPlugin_resolved env pm name info dir d w Hres). cbn zeta.
    destruct (dp_Initialize d _) as [e|]; [exists []; by_history|].
    destruct (registry pm) as [r|]; [|exists []; by_history].
    pose proof (RegisterTool_adapter_world {| plugin := d; metadata := info |} r
      ((w ++ [EvOpen (so_path env dir name)]) ++ [EvInitialize (dp_id d)])) as Hw.
    destruct (RegisterTool _ r _) as [[[e|] r'] w2]; cbn in Hw; subst w2.
    - eexists [_]; by_history.
    - exists []; by_history. }
  fold (so_path env dir name).
  split; [|split].
  - unfold LoadPlugin. rewrite Hdisc, Hfree, Hdir.
    destruct (plugin_Open env _) as [h|e] eqn:Hopen; [|exists []; by_history].
    destruct (Lookup h "Plugin") as [sym|e] eqn:Hsym; [|exists []; by_history].
    destruct (assert_DynamicPlugin sym) as [d|T] eqn:Hd; [|exists []; by_history].
    destruct (Hgo h sym d eq_refl Hsym Hd) as (_ & tail & Htail).
    exists (EvInitialize (dp_id d) :: tail). rewrite <- Htail.
    unfold LoadPlugin. by rewrite Hdisc, Hfree, Hdir, Hopen, Hsym, Hd.
  - intros info'. cbn zeta. unfold LoadPlugin, set_discovered.
    cbn [discovered loaded pluginPaths registry].
    rewrite lookup_insert_eq, Hdisc, Hfree, Hdir.
    destruct (plugin_Open env _) as [h|e]; [|done].
    destruct (Lookup h "Plugin") as [sym|e]; [|done].
    destruct (assert_DynamicPlugin sym) as [d|T]; [|done].
    unfold bind, call_Initialize.
    destruct (dp_Initialize d _) as [e|]; [done|].
    destruct (registry pm) as [r|]; [|done].
    change (as_tool {| plugin := d; metadata := info' |})
      with (as_tool {| plugin := d; metadata := info |}).
    destruct (RegisterTool _ r _) as [[[e|] r'] w2]; done.
  - intros h Hopen.
    destruct (Lookup h "Plugin") as [[[d|]|d|T]|e] eqn:Hsym.
    + by apply (Hgo h (SymPtr (Some d)) d).
    + unfold LoadPlugin. by rewrite Hdisc, Hfree, Hdir, Hopen, Hsym.
    + by apply (Hgo h (SymDirect d) d).
    + unfold LoadPlugin. by rewrite Hdisc, Hfree, Hdir, Hopen, Hsym.
    + unfold LoadPlugin. by rewrite Hdisc, Hfree, Hdir, Hopen, Hsym.
Qed.

Lemma LoadPlugin_opens_name_so_witness :
  ∃ tail, snd (LoadPlugin echo_env "echo" (echo_discovered (NewRegistry false 0 [])) [])
          = [] ++ EvOpen (filepath_Join echo_env "plugins/echo" ("echo" +:+ ".so"))
               :: tail.
Proof.
  apply (LoadPlugin_opens_name_so echo_env
           (echo_discovered (NewRegistry false 0 [])) "echo" "plugins/echo"
           echo_manifest []).
  - reflexivity.
  - reflexivity.
  - reflexivity.
Defined.

(** *** Unloading and reloading *)

(** C3, as stated, fails: "stuck" is loaded, its [Shutdown] fails, the
    error is propagated, and the entry is still in the loaded set: a
    second [LoadPlugin] is refused as "already loaded". *)
Lemma UnloadPlugin_keeps_entry_on_shutdown_failure :
  plugin <$> loaded stuck_loaded !! "stuck" = Some stuck ∧
  fst (fst (UnloadPlugin "stuck" stuck_loaded []))
    = Some "failed to shutdown plugin stuck: device busy" ∧
  plugin <$> loaded (snd (fst (UnloadPlugin "stuck" stuck_loaded []))) !! "stuck"
    = Some stuck ∧
  fst (fst (LoadPlugin stuck_env "stuck"
              (snd (fst (UnloadPlugin "stuck" stuck_loaded []))) []))
    = Some "plugin stuck already loaded".
Proof. repeat split; vm_compute; reflexivity. Qed.

(** C3, amended. [UnloadPlugin] of a loaded name first asks the registry,
    when there is one, to unregister that name, and goes on whatever the
    answer: the registry it leaves is the one [UnregisterTool] returned,
    with no tool under the name and every tool under another name still
    there. It then calls the plugin's [Shutdown]. When the hook fails,
    its error is propagated and the loaded set is left as it was, the
    entry included, so that a later [LoadPlugin] of the name is refused
    (as already loaded when the name is a discovered one); the entry is
    removed exactly when the hook succeeds. *)
Theorem UnloadPlugin_removes_only_after_shutdown
    (name : string) (pm : PluginManager) (a : DynamicPluginAdapter) (w : World) :
  loaded pm !! name = Some a →
  ∃ err pm' w',
    UnloadPlugin name pm w = (err, pm', w') ∧
    registry pm' = (λ r, snd (fst (UnregisterTool name r w))) <$> registry pm ∧
    (∀ r', registry pm' = Some r' →
       ∃ r, registry pm = Some r ∧ tools r' = delete name (tools r) ∧
            tools r' !! name = None ∧
            ∀ k, k ≠ name → tools r' !! k = tools r !! k) ∧
    w' = after_unregister name pm w ++ [EvShutdown (dp_id (plugin a))] ∧
    discovered pm' = discovered pm ∧ pluginPaths pm' = pluginPaths pm ∧
    match dp_Shutdown (plugin a) (after_unregister name pm w) with
    | Some e =>
      err = Some ("failed to shutdown plugin " +:+ name +:+ ": " +:+ e) ∧
      loaded pm' = loaded pm ∧ loaded pm' !! name = Some a ∧
      ∀ env w2,
        LoadPlugin env name pm' w2 =
          (Some (match discovered pm !! name with
                 | Some _ => "plugin " +:+ name +:+ " already loaded"
                 | None => "plugin " +:+ name +:+ " not found"
                 end), pm', w2)
    | None =>
      err = None ∧ loaded pm' = delete name (loaded pm) ∧ loaded pm' !! name = None
    end.
Proof.
  intros Hloaded. unfold UnloadPlugin, after_unregister. rewrite Hloaded.
  unfold bind, call_Shutdown.
  destruct (registry pm) as [r|] eqn:Hreg; cbn [fmap option_fmap option_map].
  - assert (tools (snd (fst (UnregisterTool name r w))) = delete name (tools r))
      as Htools.
    { unfold UnregisterTool. destruct (tools r !! name) as [t|] eqn:Ht.
      - unfold bind. by destruct (Cleanup t w).
      - cbn. by rewrite delete_id. }
    destruct (UnregisterTool name r w) as [[e r'] w1]. cbn [ret fst snd] in *.
    destruct (dp_Shutdown (plugin a) w1) as [e1|]; eexists _, _, _;
      (split; [reflexivity|]); cbn;
      (split; [reflexivity|]);
      (split; [intros r'' [= <-]; exists r; split; [done|]; split; [done|];
               rewrite Htools; split;
               [by rewrite lookup_delete_eq
               | by intros k Hk; rewrite lookup_delete_ne]|]);
      (split; [reflexivity|]); (split; [reflexivity|]); (split; [reflexivity|]).
    + split; [done|]. split; [done|]. split; [done|].
      intros env w2. unfold LoadPlugin. cbn.
      destruct (discovered pm !! name); [by rewrite Hloaded | done].
    + split; [done|]. split; [done|]. by rewrite lookup_delete_eq.
  - cbn [ret snd].
    destruct (dp_Shutdown (plugin a) w) as [e1|]; eexists _, _, _;
      (split; [reflexivity|]); cbn;
      (split; [by rewrite ?Hreg|]);
      (split; [by rewrite ?Hreg|]);
      (split; [reflexivity|]); (split; [reflexivity|]); (split; [reflexivity|]).
    + split; [done|]. split; [done|]. split; [done|].
      intros env w2. unfold LoadPlugin.
      destruct (discovered pm !! name); [by rewrite Hloaded | done].
    + split; [done|]. split; [done|]. by rewrite lookup_delete_eq.
Qed.

Lemma UnloadPlugin_removes_only_after_shutdown_witness :
  loaded echo_loaded !! "echo" = Some {| plugin := echo; metadata := echo_manifest |} ∧
  (∃ r, registry echo_loaded = Some r ∧ is_Some (tools r !! "echo")) ∧
  ∃ err pm' w',
    UnloadPlugin "echo" echo_loaded [] = (err, pm', w') ∧
    registry pm'
      = (λ r, snd (fst (UnregisterTool "echo" r []))) <$> registry echo_loaded ∧
    (∀ r', registry pm' = Some r' →
       ∃ r, registry echo_loaded = Some r ∧ tools r' = delete "echo" (tools r) ∧
            tools r' !! "echo" = None ∧
            ∀ k, k ≠ "echo" → tools r' !! k = tools r !! k) ∧
    w' = after_unregister "echo" echo_loaded [] ++ [EvShutdown (dp_id echo)] ∧
    discovered pm' = discovered echo_loaded ∧
    pluginPaths pm' = pluginPaths echo_loaded ∧
    err = None ∧ loaded pm' = delete "echo" (loaded echo_loaded) ∧
    loaded pm' !! "echo" = None.
Proof.
  split; [vm_compute; reflexivity|].
  split; [eexists; split; vm_compute; [reflexivity | by eexists]|].
  apply (UnloadPlugin_removes_only_after_shutdown "echo" echo_loaded
           {| plugin := echo; metadata := echo_manifest |} []).
  vm_compute. reflexivity.
Defined.

(** C2: the code does otherwise. [ReloadPlugin] decides whether to unload
    by looking the name up in [plugins], a map that nothing ever writes,
    so for a plugin that is loaded it skips the unload, goes straight to
    [LoadPlugin], and that refuses the name as already loaded: nothing is
    shut down and nothing is reloaded. *)
Theorem ReloadPlugin_of_loaded_plugin_fails
    (env : Env) (name : string) (pm : PluginManager) (info : PluginMetadata)
    (a : DynamicPluginAdapter) (w : World) :
  plugins pm !! name = None →
  discovered pm !! name = Some info →
  loaded pm !! name = Some a →
  ReloadPlugin env name pm w =
    (Some ("plugin " +:+ name +:+ " already loaded"), pm, w).
Proof.
  intros Hplugins Hdisc Hloaded. unfold ReloadPlugin. rewrite Hplugins.
  rewrite bool_decide_false by (by intros [? ?]).
  unfold LoadPlugin. by rewrite Hdisc, Hloaded.
Qed.

Lemma ReloadPlugin_of_loaded_plugin_fails_witness :
  ReloadPlugin echo_env "echo" echo_loaded [EvOpen "plugins/echo/echo.so"; EvInitialize 1] =
    (Some ("plugin " +:+ "echo" +:+ " already loaded"), echo_loaded,
     [EvOpen "plugins/echo/echo.so"; EvInitialize 1]).
Proof.
  apply (ReloadPlugin_of_loaded_plugin_fails echo_env "echo" echo_loaded
           echo_manifest {| plugin := echo; metadata := echo_manifest |}).
  - vm_compute. reflexivity.
  - vm_compute. reflexivity.
  - vm_compute. reflexivity.
Defined.

(** [plugins] stays empty along every run of the manager's operations, so
    the hypothesis of the theorem above holds of every manager the program
    can reach. *)
Lemma plugins_never_written env name pm w :
  plugins (NewPluginManager (baseDir pm) (registry pm)) = ∅ ∧
  plugins (snd (fst (LoadPlugin env name pm w))) = plugins pm ∧
  plugins (snd (fst (UnloadPlugin name pm w))) = plugins pm ∧
  (∀ dir m, plugins (record_discovered dir m pm) = plugins pm).
Proof.
  split; [reflexivity|]. split; [apply LoadPlugin_plugins|].
  split; [apply UnloadPlugin_plugins | reflexivity].
Qed.

(** Unloading a plugin that is registered runs its [Shutdown] twice: once
    as the adapter's [Cleanup] inside [UnregisterTool], once directly. *)
Lemma UnloadPlugin_shuts_down_twice :
  UnloadPlugin "echo" echo_loaded [] =
    (None, set_loaded ∅ (set_registry (Some (NewRegistry false 0 [])) echo_loaded),
     [EvShutdown 1; EvShutdown 1]).
Proof. vm_compute. reflexivity. Qed.

(** ** Transport adapters *)

Section TransportFacts.

Import transport.

Variable net : Net.
Implicit Types (c : Context) (a : TransportAdapter) (h : HTTPAdapter).

Lemma Start_running c a :
  is_running a = true → Start c a = (Some (already_running a), a).
Proof.
  destruct a as [s|s|h]; cbn; intros Hrun.
  - unfold STDIO_Start. by rewrite Hrun.
  - unfold SSE_Start. by rewrite Hrun.
  - unfold HTTP_Start. by rewrite Hrun.
Qed.

Lemma Start_stopped c a :
  is_running a = false →
  fst (Start c a) = None ∧ is_running (snd (Start c a)) = true.
Proof.
  destruct a as [s|s|h]; cbn; intros Hrun.
  - unfold STDIO_Start. by rewrite Hrun.
  - unfold SSE_Start. by rewrite Hrun.
  - unfold HTTP_Start. by rewrite Hrun.
Qed.

Lemma Stop_stopped a :
  is_running a = false → Stop net a = (None, a) ∧ IsHealthy a = false.
Proof.
  destruct a as [s|s|h]; cbn; intros Hrun.
  - unfold STDIO_Stop, STDIO_IsHealthy. by rewrite Hrun.
  - unfold SSE_Stop, SSE_IsHealthy. by rewrite Hrun.
  - unfold HTTP_Stop, HTTP_IsHealthy. by rewrite Hrun.
Qed.

Lemma CreateTransport_stopped protocol sse http a :
  CreateTransport protocol sse http = inl a → is_running a = false.
Proof.
  unfold CreateTransport. repeat case_decide; inversion 1; reflexivity.
Qed.

End TransportFacts.

(** C7. For each of the three adapters: [Start] on a running adapter
    returns the "already running" error and leaves the adapter exactly as
    it was; [Stop] on an adapter that is not running returns success,
    changes nothing, and the adapter is unhealthy before and after. An
    adapter straight from the factory is not running, and after a
    successful [Start] a second [Start] is refused. *)
Theorem Start_Stop_misuse
    (net : transport.Net) (c : transport.Context) (a : transport.TransportAdapter) :
  (if transport.is_running a
   then transport.Start c a = (Some (already_running a), a) ∧
        (∃ proto, already_running a = proto +:+ " transport already running")
   else transport.Stop net a = (None, a) ∧
        transport.IsHealthy a = false ∧
        transport.IsHealthy (snd (transport.Stop net a)) = false ∧
        fst (transport.Start c a) = None ∧
        transport.Start c (snd (transport.Start c a))
          = (Some (already_running a), snd (transport.Start c a))) ∧
  (∀ protocol sse http a0,
     transport.CreateTransport protocol sse http = inl a0 →
     transport.Stop net a0 = (None, a0) ∧ transport.IsHealthy a0 = false).
Proof.
  split.
  - destruct (transport.is_running a) eqn:Hrun.
    + split; [by apply Start_running|].
      destruct a; [by exists "STDIO" | by exists "SSE" | by exists "HTTP"].
    + destruct (Stop_stopped net a Hrun) as [Hstop Hhealth].
      destruct (Start_stopped c a Hrun) as [Hfst Hnow].
      rewrite Hstop. repeat split; try done.
      rewrite (Start_running c _ Hnow). f_equal. f_equal.
      by destruct a; cbn; [destruct (transport.STDIO_Start _ _)
                          | destruct (transport.SSE_Start _ _)
                          | destruct (transport.HTTP_Start _ _)].
  - intros protocol sse http a0 Hnew.
    apply Stop_stopped. by eapply CreateTransport_stopped.
Qed.

(** *** Binding the listener *)

(** C4, as stated, fails: the port is taken, so the server the adapter
    builds cannot bind, yet [Start] returns nil and [IsHealthy] is true
    when [Start] returns. *)
Lemma HTTP_Start_hides_bind_failure :
  (transport.ListenAndServe busy_net <$>
     transport.httpServer
       (snd (transport.HTTP_Start background (transport.NewHTTPAdapter busy_config))))
    = Some (Some address_in_use) ∧
  fst (transport.HTTP_Start background (transport.NewHTTPAdapter busy_config)) = None ∧
  transport.HTTP_IsHealthy
    (snd (transport.HTTP_Start background (transport.NewHTTPAdapter busy_config)))
    = true.
Proof. repeat split; vm_compute; reflexivity. Qed.

(** C4, amended. When the listener of an HTTP-based adapter (the HTTP
    adapter or the SSE adapter) that is not running cannot bind, [Start]
    still returns success and the adapter reports healthy; the bind error
    is what [ListenAndServe] returns to the background goroutine, which
    logs it and clears [running]. From then on [IsHealthy] is false and
    [Stop] is a no-op that returns success. *)
Theorem HTTP_bind_failure_surfaces_in_background
    (net : transport.Net) (c : transport.Context)
    (h : transport.HTTPAdapter) (s : transport.SSEAdapter) (e : string) :
  e ≠ transport.ErrServerClosed →
  (transport.running h = false →
   transport.bind net
     (transport.addr_of (transport.Host (transport.config h))
                        (transport.Port (transport.config h))) = Some e →
   ∃ srv h1,
     transport.HTTP_Start c h = (None, h1) ∧
     transport.httpServer h1 = Some srv ∧
     transport.HTTP_IsHealthy h1 = true ∧
     transport.ListenAndServe net srv = Some e ∧
     ∃ h2,
       transport.HTTP_serve_returns e h1 = (["HTTP server error: " +:+ e], h2) ∧
       transport.HTTP_IsHealthy h2 = false ∧
       transport.HTTP_Stop net h2 = (None, h2)) ∧
  (transport.sse_running s = false →
   transport.bind net
     (transport.addr_of (transport.sse_Host (transport.sse_config s))
                        (transport.sse_Port (transport.sse_config s))) = Some e →
   ∃ srv s1,
     transport.SSE_Start c s = (None, s1) ∧
     transport.sse_httpServer s1 = Some srv ∧
     transport.SSE_IsHealthy s1 = true ∧
     transport.ListenAndServe net srv = Some e ∧
     ∃ s2,
       transport.SSE_serve_returns e s1 = (["SSE server error: " +:+ e], s2) ∧
       transport.SSE_IsHealthy s2 = false ∧
       transport.SSE_Stop net s2 = (None, s2)).
Proof.
  intros Hne. split; intros Hstopped Hbind.
  - unfold transport.HTTP_Start. rewrite Hstopped.
    eexists _, _. split; [reflexivity|]. cbn.
    split; [reflexivity|]. split; [reflexivity|].
    split; [exact Hbind|].
    unfold transport.HTTP_serve_returns. rewrite decide_False by done.
    eexists. split; [reflexivity|]. split; reflexivity.
  - unfold transport.SSE_Start. rewrite Hstopped.
    eexists _, _. split; [reflexivity|]. cbn.
    split; [reflexivity|]. split; [reflexivity|].
    split; [exact Hbind|].
    unfold transport.SSE_serve_returns. rewrite decide_False by done.
    eexists. split; [reflexivity|]. split; reflexivity.
Qed.

Lemma HTTP_bind_failure_surfaces_in_background_witness :
  (∃ srv h1,
     transport.HTTP_Start background (transport.NewHTTPAdapter busy_config) = (None, h1) ∧
     transport.httpServer h1 = Some srv ∧
     transport.HTTP_IsHealthy h1 = true ∧
     transport.ListenAndServe busy_net srv = Some address_in_use ∧
     ∃ h2,
       transport.HTTP_serve_returns address_in_use h1
         = (["HTTP server error: " +:+ address_in_use], h2) ∧
       transport.HTTP_IsHealthy h2 = false ∧
       transport.HTTP_Stop busy_net h2 = (None, h2)) ∧
  (∃ srv s1,
     transport.SSE_Start background (transport.NewSSEAdapter busy_sse_config) = (None, s1) ∧
     transport.sse_httpServer s1 = Some srv ∧
     transport.SSE_IsHealthy s1 = true ∧
     transport.ListenAndServe busy_net srv = Some address_in_use ∧
     ∃ s2,
       transport.SSE_serve_returns address_in_use s1
         = (["SSE server error: " +:+ address_in_use], s2) ∧
       transport.SSE_IsHealthy s2 = false ∧
       transport.SSE_Stop busy_net s2 = (None, s2)).
Proof.
  assert (address_in_use ≠ transport.ErrServerClosed) as Hne
    by (vm_compute; discriminate).
  destruct (HTTP_bind_failure_surfaces_in_background busy_net background
              (transport.NewHTTPAdapter busy_config)
              (transport.NewSSEAdapter busy_sse_config) address_in_use Hne)
    as [Hhttp Hsse].
  split.
  - apply Hhttp; [reflexivity | vm_compute; reflexivity].
  - apply Hsse; [reflexivity | vm_compute; reflexivity].
Defined.

(** ** Metrics collector *)

Section MetricsFacts.

Import server.

Local Open Scope Z_scope.

Lemma wrap64_in_range z : in_int64 z → wrap64 z = z.
Proof.
  unfold in_int64, wrap64. intros Hz. rewrite Z.mod_small by lia. lia.
Qed.

Lemma wrap64_range z : in_int64 (wrap64 z).
Proof.
  unfold in_int64, wrap64.
  pose proof (Z.mod_pos_bound (z + 2 ^ 63) (2 ^ 64) ltac:(lia)). lia.
Qed.

Lemma wrap64_add_l a b : wrap64 (wrap64 a + b) = wrap64 (a + b).
Proof.
  unfold wrap64. f_equal.
  replace ((a + 2 ^ 63) `mod` 2 ^ 64 - 2 ^ 63 + b + 2 ^ 63)
    with ((a + 2 ^ 63) `mod` 2 ^ 64 + b) by lia.
  rewrite Zplus_mod_idemp_l. f_equal. lia.
Qed.

Lemma foldl_wrap64 l acc :
  foldl (fun total rt => wrap64 (total + rt)) (wrap64 acc) l
  = wrap64 (acc + sum_of l).
Proof.
  revert acc. induction l as [|x l IH]; intros acc; cbn [foldl sum_of foldr].
  - f_equal. lia.
  - rewrite wrap64_add_l, IH. f_equal. unfold sum_of. lia.
Qed.

(** The running total of the loop is the exact sum, wrapped once. *)
Lemma total_of_sum l : total_of l = wrap64 (sum_of l).
Proof.
  unfold total_of. change 0 with (wrap64 0) at 1. by rewrite foldl_wrap64.
Qed.

Lemma quot_in_range a n : in_int64 a → 0 < n → in_int64 (a ÷ n).
Proof.
  unfold in_int64. intros Ha Hn.
  destruct (decide (0 <= a)) as [Hpos|Hneg].
  - rewrite Z.quot_div_nonneg by lia.
    pose proof (Z.div_pos a n ltac:(lia) ltac:(lia)).
    pose proof (Z.div_le_upper_bound a n a ltac:(lia) ltac:(nia)). lia.
  - replace a with (- - a) by lia. rewrite Z.quot_opp_l by lia.
    rewrite Z.quot_div_nonneg by lia.
    pose proof (Z.div_pos (- a) n ltac:(lia) ltac:(lia)).
    pose proof (Z.div_le_upper_bound (- a) n (- a) ltac:(lia) ltac:(nia)). lia.
Qed.

Lemma length_last_n {A} n (l : list A) : length (last_n n l) = (length l `min` n)%nat.
Proof. unfold last_n. rewrite length_drop. lia. Qed.

Lemma last_n_short {A} n (l : list A) : (length l ≤ n)%nat → last_n n l = l.
Proof. unfold last_n. intros Hl. by replace (length l - n)%nat with 0%nat by lia. Qed.

Lemma last_n_app {A} n (l1 l2 : list A) :
  last_n n (last_n n l1 ++ l2) = last_n n (l1 ++ l2).
Proof.
  unfold last_n at 1 3. rewrite !length_app, length_last_n.
  unfold last_n.
  destruct (decide (length l1 ≤ n)%nat) as [Hshort|Hlong].
  - replace (length l1 - n)%nat with 0%nat by lia. cbn [drop].
    f_equal. lia.
  - rewrite <- (drop_app_le l1 l2) by lia. rewrite drop_drop. f_equal. lia.
Qed.

(** One call keeps the window: the appended list, cut back to its last
    1000 entries. *)
Lemma window_step (rts : list Z) (d : Z) :
  (length rts ≤ 1000)%nat →
  (if decide (1000 < length (rts ++ [d]))%nat then drop 1 (rts ++ [d]) else rts ++ [d])
  = last_n 1000 (rts ++ [d]).
Proof.
  intros Hlen. unfold last_n. rewrite length_app. cbn [length].
  case_decide as Hfull.
  - cbn [length] in Hfull.
    by replace (length rts + 1 - 1000)%nat with 1%nat by lia.
  - cbn [length] in Hfull.
    by replace (length rts + 1 - 1000)%nat with 0%nat by lia.
Qed.

(** [RecordRequest] never panics, and what it leaves behind. *)
Lemma RecordRequest_step d tool err m :
  (length (responseTimes m) ≤ 1000)%nat →
  ∃ m', RecordRequest d tool err m = Some m' ∧
        responseTimes m' = last_n 1000 (responseTimes m ++ [d]) ∧
        avgResponseTime m'
          = wrap64 (sum_of (responseTimes m')) ÷ Z.of_nat (length (responseTimes m')).
Proof.
  intros Hlen. unfold RecordRequest. cbn zeta.
  rewrite (window_step _ d Hlen).
  set (rts' := last_n 1000 (responseTimes m ++ [d])).
  assert (0 < length rts')%nat as Hpos.
  { unfold rts'. rewrite length_last_n, length_app. cbn [length]. lia. }
  unfold go_div. rewrite decide_False by lia.
  eexists. split; [reflexivity|]. cbn [responseTimes avgResponseTime].
  split; [reflexivity|].
  rewrite total_of_sum. apply wrap64_in_range, quot_in_range; [apply wrap64_range | lia].
Qed.

Lemma record_all_window rs m :
  (length (responseTimes m) ≤ 1000)%nat →
  ∃ m', record_all rs m = Some m' ∧
        responseTimes m' = last_n 1000 (responseTimes m ++ (duration <$> rs)) ∧
        (rs ≠ [] →
         avgResponseTime m'
           = wrap64 (sum_of (responseTimes m')) ÷ Z.of_nat (length (responseTimes m'))).
Proof.
  revert m. induction rs as [|r rs IH]; intros m Hlen.
  - exists m. cbn. rewrite app_nil_r, last_n_short by done. done.
  - cbn [record_all].
    destruct (RecordRequest_step (duration r) (toolName r) (isError r) m Hlen)
      as (m1 & -> & Hrts & Havg).
    destruct (IH m1) as (m' & Hrun & Hrts' & Havg').
    { rewrite Hrts, length_last_n. lia. }
    exists m'. split; [done|]. split.
    + rewrite Hrts', Hrts, last_n_app, <- app_assoc. done.
    + intros _. destruct rs as [|r' rs]; [|by apply Havg'].
      cbn in Hrun. by inversion Hrun; subst m'.
Qed.

End MetricsFacts.

(** C10, as stated, fails. After requests of 1ns and 2ns the collector
    retains both and stores 1ns, which is not their mean (3/2 ns); after
    two requests of 2^62 ns it retains both and stores -2^62 ns, the
    running total having wrapped around. *)
Lemma avgResponseTime_is_not_the_mean :
  (server.responseTimes <$> server.record_all [took 1; took 2] (server.NewMetricsCollector 0))
    = Some [1; 2]%Z ∧
  (server.avgResponseTime <$> server.record_all [took 1; took 2] (server.NewMetricsCollector 0))
    = Some 1%Z ∧
  ¬ is_mean_of 1 [1; 2]%Z ∧
  (server.responseTimes <$>
     server.record_all [took (2 ^ 62); took (2 ^ 62)] (server.NewMetricsCollector 0))
    = Some [2 ^ 62; 2 ^ 62]%Z ∧
  (server.avgResponseTime <$>
     server.record_all [took (2 ^ 62); took (2 ^ 62)] (server.NewMetricsCollector 0))
    = Some (- 2 ^ 62)%Z.
Proof.
  split; [vm_compute; reflexivity|]. split; [vm_compute; reflexivity|].
  split; [by vm_compute|]. split; vm_compute; reflexivity.
Qed.

(** C10, amended. After any non-empty sequence of [RecordRequest] calls on
    a new collector, no call having panicked, the collector retains the
    last 1000 durations recorded (all of them when fewer), at least one
    and at most 1000, and [avgResponseTime] is the sum of exactly those,
    wrapped to 64 bits, divided by their number with truncation toward
    zero; when the sum fits in 64 bits this is the truncated mean, and it
    is the mean whenever the count divides the sum. *)
Theorem RecordRequest_window_and_average (now : Z) (rs : list server.Request) :
  rs ≠ [] →
  ∃ m,
    server.record_all rs (server.NewMetricsCollector now) = Some m ∧
    server.responseTimes m = last_n 1000 (server.duration <$> rs) ∧
    (0 < length (server.responseTimes m) ≤ 1000)%nat ∧
    server.avgResponseTime m
      = (server.wrap64 (sum_of (server.responseTimes m))
         ÷ Z.of_nat (length (server.responseTimes m)))%Z ∧
    (server.in_int64 (sum_of (server.responseTimes m)) →
     server.avgResponseTime m
       = (sum_of (server.responseTimes m)
          ÷ Z.of_nat (length (server.responseTimes m)))%Z ∧
     ((Z.of_nat (length (server.responseTimes m)) | sum_of (server.responseTimes m))%Z →
      is_mean_of (server.avgResponseTime m) (server.responseTimes m))).
Proof.
  intros Hrs.
  destruct (record_all_window rs (server.NewMetricsCollector now)) as (m & Hrun & Hrts & Havg).
  { cbn. lia. }
  cbn [server.responseTimes server.NewMetricsCollector app] in Hrts.
  exists m. split; [done|]. split; [done|].
  assert (0 < length (server.responseTimes m) ≤ 1000)%nat as Hlen.
  { rewrite Hrts, length_last_n, length_fmap. destruct rs; [done|]. cbn [length]. lia. }
  split; [done|]. split; [by apply Havg|].
  intros Hfits. rewrite (Havg Hrs), wrap64_in_range by done.
  split; [done|]. intros [q Hq]. unfold is_mean_of. rewrite Hq.
  rewrite Z.quot_mul by lia. done.
Qed.

Lemma RecordRequest_window_and_average_witness :
  ∃ m,
    server.record_all [took 5; took 7] (server.NewMetricsCollector 0) = Some m ∧
    server.responseTimes m = last_n 1000 (server.duration <$> [took 5; took 7]) ∧
    (0 < length (server.responseTimes m) ≤ 1000)%nat ∧
    server.avgResponseTime m
      = (server.wrap64 (sum_of (server.responseTimes m))
         ÷ Z.of_nat (length (server.responseTimes m)))%Z ∧
    (server.in_int64 (sum_of (server.responseTimes m)) →
     server.avgResponseTime m
       = (sum_of (server.responseTimes m)
          ÷ Z.of_nat (length (server.responseTimes m)))%Z ∧
     ((Z.of_nat (length (server.responseTimes m)) | sum_of (server.responseTimes m))%Z →
      is_mean_of (server.avgResponseTime m) (server.responseTimes m))).
Proof.
  apply (RecordRequest_window_and_average 0 [took 5; took 7]).
  discriminate.
Defined.

(** * More properties *)

(** ** Registry: unregistering, listing, shutting down *)

Section RegistryMore.

Implicit Types (r : Registry) (w : World) (t : MCPToolPlugin).

Lemma UnregisterTool_missing name r w :
  tools r !! name = None →
  UnregisterTool name r w = (Some ("tool not found: " +:+ name), r, w).
Proof. intros Hnone. unfold UnregisterTool. by rewrite Hnone. Qed.

Lemma UnregisterTool_present name t r w :
  tools r !! name = Some t →
  UnregisterTool name r w
  = (None, set_tools (delete name (tools r)) r, snd (Cleanup t w)).
Proof.
  intros Hsome. unfold UnregisterTool. rewrite Hsome. unfold bind.
  by destruct (Cleanup t w).
Qed.

(** A successful registration, spelled out. *)
Lemma RegisterTool_success t r w r1 w1 :
  RegisterTool (Some t) r w = (None, r1, w1) →
  Name t ≠ "" ∧ tools r !! Name t = None ∧
  Initialize t w = (None, w1) ∧
  r1 = set_tools (<[Name t := t]> (tools r)) r.
Proof.
  intros Hreg.
  destruct (decide (Name t = "")) as [Hempty|Hne].
  { by rewrite RegisterTool_unnamed in Hreg. }
  destruct (tools r !! Name t) as [t0|] eqn:Hlk.
  { by rewrite (RegisterTool_taken t t0) in Hreg. }
  rewrite RegisterTool_fresh in Hreg by done.
  destruct (Initialize t w) as [[e|] w0]; inversion Hreg; subst. done.
Qed.

(** The cleanup loop over adapters adds one [Shutdown] call per entry. *)
Lemma cleanup_all_adapters (l : list (string * MCPToolPlugin)) w :
  Forall (λ p, ∃ a, p.2 = as_tool a) l →
  ∃ tail, snd (cleanup_all l w) = w ++ tail ∧
          length tail = length l ∧
          ∀ k a, (k, as_tool a) ∈ l → EvShutdown (dp_id (plugin a)) ∈ tail.
Proof.
  revert w. induction l as [|[k t] l IH]; intros w Hall.
  - exists []. cbn. rewrite app_nil_r. repeat split; try done.
    intros k a Hin. by apply elem_of_nil in Hin.
  - apply Forall_cons in Hall as [[a0 Ha0] Hall]. cbn in Ha0. subst t.
    cbn [cleanup_all]. unfold bind.
    change (Cleanup (as_tool a0) w) with (call_Shutdown (plugin a0) w).
    unfold call_Shutdown.
    destruct (IH (w ++ [EvShutdown (dp_id (plugin a0))]) Hall) as (tail & Hw & Hlen & Hin).
    exists (EvShutdown (dp_id (plugin a0)) :: tail).
    rewrite Hw, <- app_assoc. split; [done|]. split; [cbn; lia|].
    intros k' a Hmem. apply elem_of_cons in Hmem as [Heq|Hmem].
    + pose proof (f_equal snd Heq) as Ht. cbn [snd] in Ht.
      assert ([EvShutdown (dp_id (plugin a))] = [EvShutdown (dp_id (plugin a0))]) as Hid.
      { change (snd (Cleanup (as_tool a) []) = snd (Cleanup (as_tool a0) [])).
        by rewrite Ht. }
      inversion Hid as [Hid'].
      apply elem_of_cons. by left.
    + apply elem_of_cons. right. by eapply Hin.
Qed.

End RegistryMore.

(** X1. [UnregisterTool] of a name that is not registered fails with
    "tool not found" and changes nothing; of a registered name, it runs
    the tool's [Cleanup] once, and removes the entry and returns success
    whatever [Cleanup] returned. No other entry is touched. *)
Theorem UnregisterTool_contract (name : string) (r : Registry) (w : World) :
  ∃ err r' w',
    UnregisterTool name r w = (err, r', w') ∧
    match tools r !! name with
    | None => err = Some ("tool not found: " +:+ name) ∧ r' = r ∧ w' = w
    | Some t =>
      err = None ∧ w' = snd (Cleanup t w) ∧
      tools r' !! name = None ∧ size (tools r) = S (size (tools r'))
    end ∧
    (∀ k, k ≠ name → tools r' !! k = tools r !! k) ∧
    discoveryRunning r' = discoveryRunning r.
Proof.
  destruct (tools r !! name) as [t|] eqn:Hlk.
  - rewrite (UnregisterTool_present name t) by done.
    eexists _, _, _. split; [reflexivity|]. cbn.
    split; [|split; [|done]].
    + split; [done|]. split; [done|]. split; [by rewrite lookup_delete_eq|].
      rewrite <- (insert_id (tools r) name t) at 1 by done.
      rewrite <- insert_delete_eq. apply map_size_insert_None, lookup_delete_eq.
    + intros k Hk. by rewrite lookup_delete_ne.
  - rewrite UnregisterTool_missing by done.
    eexists _, _, _. split; [reflexivity|]. done.
Qed.

(** X2. Register, look up, unregister: after a successful [RegisterTool]
    of [t], [GetTool] under its name returns [t]; [UnregisterTool] of that
    name then succeeds, runs [t]'s [Cleanup], and gives back exactly the
    registry there was before the registration, in which [GetTool] no
    longer finds the name. *)
Theorem Register_Get_Unregister
    (t : MCPToolPlugin) (r r1 : Registry) (w w1 : World) :
  RegisterTool (Some t) r w = (None, r1, w1) →
  GetTool (Name t) r1 = (Some t, None) ∧
  UnregisterTool (Name t) r1 w1 = (None, r, snd (Cleanup t w1)) ∧
  GetTool (Name t) r = (None, Some ("tool not found: " +:+ Name t)).
Proof.
  intros Hreg. apply RegisterTool_success in Hreg as (Hne & Hfresh & Hinit & ->).
  split; [|split].
  - unfold GetTool. cbn. by rewrite lookup_insert_eq.
  - rewrite (UnregisterTool_present (Name t) t) by (cbn; by rewrite lookup_insert_eq).
    rewrite tools_set_tools, delete_insert_id by done. by destruct r.
  - unfold GetTool. by rewrite Hfresh.
Qed.

Lemma Register_Get_Unregister_witness :
  GetTool (Name (as_tool echo_adapter))
    (set_tools (<["echo" := as_tool echo_adapter]> ∅) (NewRegistry false 0 []))
    = (Some (as_tool echo_adapter), None) ∧
  UnregisterTool (Name (as_tool echo_adapter))
    (set_tools (<["echo" := as_tool echo_adapter]> ∅) (NewRegistry false 0 [])) []
    = (None, NewRegistry false 0 [], snd (Cleanup (as_tool echo_adapter) [])) ∧
  GetTool (Name (as_tool echo_adapter)) (NewRegistry false 0 [])
    = (None, Some ("tool not found: " +:+ Name (as_tool echo_adapter))).
Proof.
  apply (Register_Get_Unregister (as_tool echo_adapter) (NewRegistry false 0 [])
           (set_tools (<["echo" := as_tool echo_adapter]> ∅) (NewRegistry false 0 []))
           [] []).
  reflexivity.
Defined.

(** X3. [ListTools] returns as many tools as the catalogue has entries,
    and a tool is in the list exactly when it is registered under some
    name; [getToolNames] returns exactly the registered names, each once.
    This holds whatever the order of the range over the map. *)
Theorem ListTools_snapshot (r : Registry) :
  length (ListTools r) = size (tools r) ∧
  (∀ t, t ∈ ListTools r ↔ ∃ k, tools r !! k = Some t) ∧
  length (getToolNames r) = size (tools r) ∧
  NoDup (getToolNames r) ∧
  (∀ k, k ∈ getToolNames r ↔ is_Some (tools r !! k)).
Proof.
  unfold ListTools, getToolNames.
  rewrite !length_fmap, length_map_to_list.
  split; [done|]. split; [|split; [done|split; [apply NoDup_fst_map_to_list|]]].
  - intros t. rewrite list_elem_of_fmap. split.
    + intros ([k t'] & -> & Hin). exists k. by apply elem_of_map_to_list.
    + intros [k Hk]. exists (k, t). split; [done|]. by apply elem_of_map_to_list.
  - intros k. rewrite list_elem_of_fmap. split.
    + intros ([k' t] & -> & Hin). exists t. by apply elem_of_map_to_list.
    + intros [t Hk]. exists (k, t). split; [done|]. by apply elem_of_map_to_list.
Qed.

(** X4. Stopping periodic discovery always returns success and leaves it
    not running, with the catalogue and the loops launched so far as they
    were; stopping again changes nothing. With discovery enabled, a start
    after the stop succeeds and launches exactly one more loop, and a
    further start is refused and launches none; with discovery disabled
    the start does nothing. *)
Theorem periodic_discovery_stop_restart (r : Registry) :
  ∃ r1,
    StopPeriodicDiscovery r = (None, r1) ∧
    discoveryRunning r1 = false ∧
    tools r1 = tools r ∧ loops r1 = loops r ∧
    StopPeriodicDiscovery r1 = (None, r1) ∧
    if discoveryEnabled r
    then ∃ r2, StartPeriodicDiscovery r1 = (None, r2) ∧
               discoveryRunning r2 = true ∧ loops r2 = S (loops r) ∧
               stopDiscovery r2 = stopDiscovery r1 ∧
               StartPeriodicDiscovery r2
                 = (Some "periodic discovery already running", r2)
    else StartPeriodicDiscovery r1 = (None, r1).
Proof.
  unfold StopPeriodicDiscovery.
  destruct (discoveryRunning r) eqn:Hrun; cbn [negb];
    eexists; (split; [reflexivity|]); cbn; rewrite ?Hrun;
    (split; [done|]); (split; [done|]); (split; [done|]); (split; [done|]);
    unfold StartPeriodicDiscovery; cbn; rewrite ?Hrun;
    destruct (discoveryEnabled r) eqn:Hen; cbn; rewrite ?Hen; cbn;
    try done; eexists; repeat split; cbn; by rewrite ?Hen.
Qed.

Lemma StopPeriodicDiscovery_tools r : tools (snd (StopPeriodicDiscovery r)) = tools r.
Proof. unfold StopPeriodicDiscovery. by destruct (discoveryRunning r). Qed.

Lemma StopPeriodicDiscovery_stops r :
  discoveryRunning (snd (StopPeriodicDiscovery r)) = false.
Proof. unfold StopPeriodicDiscovery. by destruct (discoveryRunning r) eqn:Hrun. Qed.

Lemma Registry_Shutdown_unfold r w :
  Registry_Shutdown r w
  = (None, set_tools ∅ (snd (StopPeriodicDiscovery r)),
     snd (cleanup_all (map_to_list (tools r)) w)).
Proof.
  unfold Registry_Shutdown, bind. cbn zeta. rewrite StopPeriodicDiscovery_tools.
  by destruct (cleanup_all _ w) as [[] w'].
Qed.

(** X5. The registry's [Shutdown] always returns success, whatever the
    cleanup hooks return: it leaves an empty catalogue (every [GetTool]
    fails, [ListTools] is empty) with periodic discovery stopped, and a
    second [Shutdown] runs no hook and changes nothing. *)
Theorem Registry_Shutdown_clears (r : Registry) (w : World) :
  ∃ r' w',
    Registry_Shutdown r w = (None, r', w') ∧
    tools r' = ∅ ∧ ListTools r' = [] ∧
    discoveryRunning r' = false ∧
    (∀ k, GetTool k r' = (None, Some ("tool not found: " +:+ k))) ∧
    Registry_Shutdown r' w' = (None, r', w').
Proof.
  rewrite Registry_Shutdown_unfold. eexists _, _. split; [reflexivity|].
  split; [done|]. split; [by unfold ListTools; cbn; rewrite map_to_list_empty|].
  split; [apply StopPeriodicDiscovery_stops|].
  split; [intros k; unfold GetTool; cbn; by rewrite lookup_empty|].
  rewrite Registry_Shutdown_unfold. cbn [tools set_tools].
  rewrite map_to_list_empty. cbn [cleanup_all ret snd].
  unfold StopPeriodicDiscovery at 1. cbn [discoveryRunning set_tools].
  by rewrite StopPeriodicDiscovery_stops.
Qed.

(** X6. When every registered tool is a plugin adapter, the registry's
    [Shutdown] adds exactly one call per entry to the history, and the
    [Shutdown] hook of every registered plugin is among them. *)
Theorem Registry_Shutdown_shuts_every_adapter (r : Registry) (w : World) :
  (∀ k t, tools r !! k = Some t → ∃ a, t = as_tool a) →
  ∃ tail,
    snd (Registry_Shutdown r w) = w ++ tail ∧
    length tail = size (tools r) ∧
    ∀ k a, tools r !! k = Some (as_tool a) → EvShutdown (dp_id (plugin a)) ∈ tail.
Proof.
  intros Hall. rewrite Registry_Shutdown_unfold. cbn [snd].
  destruct (cleanup_all_adapters (map_to_list (tools r)) w) as (tail & Hw & Hlen & Hin).
  { apply Forall_forall. intros [k t] Hkt. apply elem_of_map_to_list in Hkt.
    by apply (Hall k). }
  exists tail. split; [done|]. split; [by rewrite Hlen, length_map_to_list|].
  intros k a Hk. apply (Hin k). by apply elem_of_map_to_list.
Qed.

Lemma Registry_Shutdown_shuts_every_adapter_witness :
  ∃ tail,
    snd (Registry_Shutdown
           (set_tools {[ "echo" := as_tool echo_adapter ]} (NewRegistry false 0 [])) [])
      = [] ++ tail ∧
    length tail
      = size (tools (set_tools {[ "echo" := as_tool echo_adapter ]}
                       (NewRegistry false 0 []))) ∧
    ∀ k a,
      tools (set_tools {[ "echo" := as_tool echo_adapter ]} (NewRegistry false 0 []))
        !! k = Some (as_tool a) →
      EvShutdown (dp_id (plugin a)) ∈ tail.
Proof.
  apply (Registry_Shutdown_shuts_every_adapter
           (set_tools {[ "echo" := as_tool echo_adapter ]} (NewRegistry false 0 [])) []).
  intros k t Hk. cbn in Hk. apply lookup_singleton_Some in Hk as [_ <-].
  by exists echo_adapter.
Defined.

(** ** Plugin manager: loading and unloading *)

Section ManagerMore.

Variable env : Env.
Implicit Types (pm : PluginManager) (w : World) (name dir : string).

(** [LoadPlugin] fails without changing the manager unless the plugin
    value is resolved. *)
Lemma LoadPlugin_unresolved pm name w :
  (∀ info dir d, ¬ resolves env pm name info dir d) →
  ∃ e w', LoadPlugin env name pm w = (Some e, pm, w').
Proof.
  intros Hno. unfold LoadPlugin.
  destruct (discovered pm !! name) as [info|] eqn:Hdisc; [|by eexists _, _].
  destruct (loaded pm !! name) eqn:Hfree; [by eexists _, _|].
  destruct (pluginPaths pm !! name) as [dir|] eqn:Hdir; [|by eexists _, _].
  destruct (plugin_Open env _) as [h|e] eqn:Hopen; [|by eexists _, _].
  destruct (Lookup h "Plugin") as [sym|e] eqn:Hsym; [|by eexists _, _].
  destruct (assert_DynamicPlugin sym) as [d|T] eqn:Hd; [|by eexists _, _].
  destruct (Hno info dir d). repeat split; try done. by exists h, sym.
Qed.

Lemma resolves_dec pm name :
  (∃ info dir d, resolves env pm name info dir d) ∨
  (∀ info dir d, ¬ resolves env pm name info dir d).
Proof.
  unfold resolves.
  destruct (discovered pm !! name) as [info|] eqn:Hdisc;
    [|right; by intros ??? (? & _)].
  destruct (loaded pm !! name) eqn:Hfree; [right; by intros ??? (_ & ? & _)|].
  destruct (pluginPaths pm !! name) as [dir|] eqn:Hdir;
    [|right; by intros ??? (_ & _ & ? & _)].
  destruct (plugin_Open env (so_path env dir name)) as [h|e] eqn:Hopen; cycle 1.
  { right. intros ? dir' ? (_ & _ & [= <-] & h & sym & Ho & _). congruence. }
  destruct (Lookup h "Plugin") as [sym|e] eqn:Hsym; cycle 1.
  { right. intros ? dir' ? (_ & _ & [= <-] & h' & sym & Ho & Hs & _). congruence. }
  destruct (assert_DynamicPlugin sym) as [d|T] eqn:Hd; cycle 1.
  { right. intros ? dir' ? (_ & _ & [= <-] & h' & sym' & Ho & Hs & Ha). congruence. }
  left. exists info, dir, d. repeat split; try done. by exists h, sym.
Qed.

Lemma resolves_unique pm name info dir d info' dir' d' :
  resolves env pm name info dir d → resolves env pm name info' dir' d' →
  info' = info ∧ dir' = dir ∧ d' = d.
Proof.
  intros (H1 & _ & H3 & h & sym & Ho & Hs & Ha)
         (H1' & _ & H3' & h' & sym' & Ho' & Hs' & Ha').
  rewrite H1 in H1'. rewrite H3 in H3'. injection H1' as <-. injection H3' as <-.
  rewrite Ho in Ho'. injection Ho' as <-. rewrite Hs in Hs'. injection Hs' as <-.
  rewrite Ha in Ha'. by injection Ha' as <-.
Qed.

End ManagerMore.

(** X7. What one [LoadPlugin] does to the manager. When it fails, for
    whatever reason, the manager is left exactly as it was. When it
    succeeds, the plugin value [d] was resolved; the loaded set gains the
    adapter of [d] under the manifest name and nothing else changes, other
    than that the registry, when there is one, gains that adapter under
    the plugin's own [Name()], which was free; and loading the same name
    again is refused as already loaded without any effect. *)
Theorem LoadPlugin_contract
    (env : Env) (name : string) (pm : PluginManager) (w : World) :
  ∃ err pm' w',
    LoadPlugin env name pm w = (err, pm', w') ∧
    match err with
    | Some _ => pm' = pm
    | None =>
      ∃ info dir d,
        resolves env pm name info dir d ∧
        loaded pm' = <[name := {| plugin := d; metadata := info |}]> (loaded pm) ∧
        discovered pm' = discovered pm ∧ pluginPaths pm' = pluginPaths pm ∧
        plugins pm' = plugins pm ∧ baseDir pm' = baseDir pm ∧
        match registry pm with
        | None => registry pm' = None
        | Some r =>
          tools r !! dp_Name d = None ∧
          ∃ r', registry pm' = Some r' ∧
                tools r' = <[dp_Name d := as_tool {| plugin := d; metadata := info |}]>
                             (tools r)
        end ∧
        LoadPlugin env name pm' w'
          = (Some ("plugin " +:+ name +:+ " already loaded"), pm', w')
    end.
Proof.
  destruct (resolves_dec env pm name) as [(info & dir & d & Hres)|Hno]; cycle 1.
  { destruct (LoadPlugin_unresolved env pm name w Hno) as (e & w' & ->).
    by eexists _, _, _. }
  rewrite (LoadPlugin_resolved env pm name info dir d w Hres). cbn zeta.
  assert (∀ pm', discovered pm' = discovered pm →
            loaded pm' = <[name := {| plugin := d; metadata := info |}]> (loaded pm) →
            ∀ w', LoadPlugin env name pm' w'
                  = (Some ("plugin " +:+ name +:+ " already loaded"), pm', w')) as Hagain.
  { intros pm' Hd Hl w'. unfold LoadPlugin. rewrite Hd, Hl, lookup_insert_eq.
    destruct Hres as (-> & _). done. }
  destruct (dp_Initialize d _) as [e|]; [by eexists _, _, _|].
  destruct (registry pm) as [r|] eqn:Hreg; cycle 1.
  { eexists _, _, _. split; [reflexivity|]. exists info, dir, d.
    split; [exact Hres|].
    cbn [loaded discovered pluginPaths plugins baseDir registry set_loaded set_registry].
    rewrite Hreg. do 6 (split; [done|]). by apply Hagain. }
  destruct (RegisterTool _ r _) as [[[e|] r'] w2] eqn:Hrt.
  { apply RegisterTool_failure_unchanged in Hrt as ->.
    eexists _, _, _. split; [reflexivity|]. by apply set_registry_id. }
  apply RegisterTool_success in Hrt as (_ & Hfresh & _ & ->).
  eexists _, _, _. split; [reflexivity|]. exists info, dir, d.
  split; [exact Hres|].
  cbn [loaded discovered pluginPaths plugins baseDir registry set_loaded set_registry].
  do 5 (split; [done|]). split; [|by apply Hagain].
  split; [exact Hfresh|]. by eexists.
Qed.

Lemma clock_resolves :
  resolves clock_env clock_discovered "clock" clock_manifest "plugins/clock" clock.
Proof.
  repeat split; try reflexivity.
  eexists _, (SymPtr (Some clock)). repeat split; reflexivity.
Defined.

(** X8. Load, then unload. For a plugin that answers to its manifest name
    and whose hooks succeed, over a registry in which the name is free,
    [LoadPlugin] followed by [UnloadPlugin] gives back exactly the manager
    there was; and the unload calls the plugin's [Shutdown] twice, once as
    the adapter's [Cleanup] inside [UnregisterTool] (whose result is
    dropped) and once directly. *)
Theorem Load_Unload_round_trip
    (env : Env) (pm : PluginManager) (name : string) (info : PluginMetadata)
    (dir : string) (d : DynamicPlugin) (r : Registry) (w : World) :
  resolves env pm name info dir d →
  dp_Name d = name → name ≠ "" →
  registry pm = Some r → tools r !! name = None →
  dp_Initialize d (w ++ [EvOpen (so_path env dir name)]) = None →
  dp_Shutdown d (w ++ [EvOpen (so_path env dir name); EvInitialize (dp_id d);
                       EvShutdown (dp_id d)]) = None →
  ∃ pm1,
    LoadPlugin env name pm w
      = (None, pm1, w ++ [EvOpen (so_path env dir name); EvInitialize (dp_id d)]) ∧
    is_Some (loaded pm1 !! name) ∧
    UnloadPlugin name pm1 (w ++ [EvOpen (so_path env dir name); EvInitialize (dp_id d)])
      = (None, pm,
         w ++ [EvOpen (so_path env dir name); EvInitialize (dp_id d);
               EvShutdown (dp_id d); EvShutdown (dp_id d)]).
Proof.
  intros Hres Hname Hne Hreg Hfree Hinit Hshut.
  rewrite (LoadPlugin_resolved env pm name info dir d w Hres). cbn zeta.
  rewrite Hinit, Hreg.
  rewrite RegisterTool_fresh by (cbn; by rewrite Hname).
  cbn [as_tool Initialize dpa_Initialize ret Name plugin]. rewrite Hname.
  eexists. split; [by rewrite <- app_assoc|].
  split; [cbn; by rewrite lookup_insert_eq|].
  unfold UnloadPlugin. cbn [loaded set_loaded registry set_registry].
  rewrite lookup_insert_eq. unfold bind.
  rewrite (UnregisterTool_present name
             (as_tool {| plugin := d; metadata := info |}))
    by (cbn; by rewrite lookup_insert_eq).
  cbn [ret snd fst Cleanup as_tool dpa_Cleanup call_Shutdown plugin].
  rewrite <- !app_assoc. cbn [app]. rewrite Hshut.
  f_equal. f_equal.
  destruct pm as [pl pp rg bd dc ld], r as [tl de si di sd cl dr lo].
  cbn in *. subst rg.
  unfold set_loaded, set_registry, set_tools. cbn.
  destruct Hres as (_ & Hld & _). cbn in Hld.
  by rewrite !delete_insert_id.
Qed.

Lemma Load_Unload_round_trip_witness :
  ∃ pm1,
    LoadPlugin echo_env "echo" (echo_discovered (NewRegistry false 0 [])) []
      = (None, pm1,
         [] ++ [EvOpen (so_path echo_env "plugins/echo" "echo");
                EvInitialize (dp_id echo)]) ∧
    is_Some (loaded pm1 !! "echo") ∧
    UnloadPlugin "echo" pm1
      ([] ++ [EvOpen (so_path echo_env "plugins/echo" "echo"); EvInitialize (dp_id echo)])
      = (None, echo_discovered (NewRegistry false 0 []),
         [] ++ [EvOpen (so_path echo_env "plugins/echo" "echo");
                EvInitialize (dp_id echo);
                EvShutdown (dp_id echo); EvShutdown (dp_id echo)]).
Proof.
  apply (Load_Unload_round_trip echo_env (echo_discovered (NewRegistry false 0 []))
           "echo" echo_manifest "plugins/echo" echo (NewRegistry false 0 []) []).
  - apply echo_resolves.
  - reflexivity.
  - discriminate.
  - reflexivity.
  - reflexivity.
  - reflexivity.
  - reflexivity.
Defined.

(** X9. A plugin whose [Name()] differs from its manifest name is
    registered under the former and unregistered under the latter: after
    [LoadPlugin] and a successful [UnloadPlugin], the plugin has been shut
    down and is no longer in the loaded set, but its adapter is still in
    the registry and [GetTool] still returns it. *)
Theorem Unload_leaves_renamed_tool_registered
    (env : Env) (pm : PluginManager) (name : string) (info : PluginMetadata)
    (dir : string) (d : DynamicPlugin) (r : Registry) (w : World) :
  resolves env pm name info dir d →
  dp_Name d ≠ name → dp_Name d ≠ "" →
  registry pm = Some r → tools r !! dp_Name d = None → tools r !! name = None →
  dp_Initialize d (w ++ [EvOpen (so_path env dir name)]) = None →
  dp_Shutdown d (w ++ [EvOpen (so_path env dir name); EvInitialize (dp_id d)]) = None →
  ∃ pm1 pm2 r2,
    LoadPlugin env name pm w
      = (None, pm1, w ++ [EvOpen (so_path env dir name); EvInitialize (dp_id d)]) ∧
    UnloadPlugin name pm1 (w ++ [EvOpen (so_path env dir name); EvInitialize (dp_id d)])
      = (None, pm2,
         w ++ [EvOpen (so_path env dir name); EvInitialize (dp_id d);
               EvShutdown (dp_id d)]) ∧
    loaded pm2 !! name = None ∧
    registry pm2 = Some r2 ∧
    GetTool (dp_Name d) r2 = (Some (as_tool {| plugin := d; metadata := info |}), None).
Proof.
  intros Hres Hname Hne Hreg Hfree Hfree' Hinit Hshut.
  rewrite (LoadPlugin_resolved env pm name info dir d w Hres). cbn zeta.
  rewrite Hinit, Hreg.
  rewrite RegisterTool_fresh by done.
  cbn [as_tool Initialize dpa_Initialize ret Name plugin].
  eexists _, _, _. split; [by rewrite <- app_assoc|].
  unfold UnloadPlugin. cbn [loaded set_loaded registry set_registry].
  rewrite lookup_insert_eq. unfold bind.
  rewrite UnregisterTool_missing
    by (cbn; by rewrite lookup_insert_ne).
  cbn [ret snd fst call_Shutdown plugin]. rewrite Hshut.
  split; [by rewrite <- !app_assoc|].
  cbn [loaded set_loaded registry set_registry].
  split; [by rewrite lookup_delete_eq|]. split; [reflexivity|].
  unfold GetTool. cbn. by rewrite lookup_insert_eq.
Qed.

Lemma Unload_leaves_renamed_tool_registered_witness :
  ∃ pm1 pm2 r2,
    LoadPlugin clock_env "clock" clock_discovered []
      = (None, pm1,
         [] ++ [EvOpen (so_path clock_env "plugins/clock" "clock");
                EvInitialize (dp_id clock)]) ∧
    UnloadPlugin "clock" pm1
      ([] ++ [EvOpen (so_path clock_env "plugins/clock" "clock");
              EvInitialize (dp_id clock)])
      = (None, pm2,
         [] ++ [EvOpen (so_path clock_env "plugins/clock" "clock");
                EvInitialize (dp_id clock); EvShutdown (dp_id clock)]) ∧
    loaded pm2 !! "clock" = None ∧
    registry pm2 = Some r2 ∧
    GetTool (dp_Name clock) r2
      = (Some (as_tool {| plugin := clock; metadata := clock_manifest |}), None).
Proof.
  apply (Unload_leaves_renamed_tool_registered clock_env clock_discovered "clock"
           clock_manifest "plugins/clock" clock (NewRegistry false 0 []) []).
  - apply clock_resolves.
  - discriminate.
  - discriminate.
  - reflexivity.
  - reflexivity.
  - reflexivity.
  - reflexivity.
  - reflexivity.
Defined.

(** ** Plugin manager: discovery and the manager's invariant *)

Section DiscoveryFacts.

Variables (env : Env) (fs : FS).
Implicit Types (pm : PluginManager) (w : World) (name dir : string).

Lemma loadMetadata_valid path m :
  loadMetadata fs path = (m, None) → validateMetadata m = None.
Proof.
  unfold loadMetadata, validateMetadata.
  destruct (ReadFile fs path) as [data|e]; [|by inversion 1].
  destruct (json_Unmarshal fs data) as [m0 [e|]]; [by inversion 1|].
  repeat case_decide; inversion 1; subst; by repeat case_decide.
Qed.

Lemma manifest_in_valid base e m :
  manifest_in env fs base e = Some m → validateMetadata m = None.
Proof.
  unfold manifest_in. destruct (de_IsDir e); [|done].
  destruct (Stat fs _); try done;
    destruct (loadMetadata fs _) as [m0 [err|]] eqn:Hload; try done;
    intros [= <-]; by eapply loadMetadata_valid.
Qed.

(** One step of the scan, through [manifest_in]. *)
Lemma scan_entry_eq pm e :
  scan_entry env fs pm e =
    match manifest_in env fs (baseDir pm) e with
    | Some m => record_discovered (filepath_Join env (baseDir pm) (de_Name e)) m pm
    | None => pm
    end.
Proof.
  unfold scan_entry, manifest_in. destruct (de_IsDir e); cbn; [|done].
  destruct (Stat fs _); try done; by destruct (loadMetadata fs _) as [m [err|]].
Qed.

Lemma scan_entry_baseDir pm e : baseDir (scan_entry env fs pm e) = baseDir pm.
Proof. rewrite scan_entry_eq. by destruct (manifest_in _ _ _ _). Qed.

Lemma scan_baseDir es pm : baseDir (foldl (scan_entry env fs) pm es) = baseDir pm.
Proof.
  revert pm. induction es as [|e es IH]; intros pm; [done|].
  cbn. by rewrite IH, scan_entry_baseDir.
Qed.

(** The scan leaves alone what it does not record. *)
Lemma scan_static es pm :
  loaded (foldl (scan_entry env fs) pm es) = loaded pm ∧
  registry (foldl (scan_entry env fs) pm es) = registry pm ∧
  plugins (foldl (scan_entry env fs) pm es) = plugins pm.
Proof.
  revert pm. induction es as [|e es IH]; intros pm; [done|].
  cbn. destruct (IH (scan_entry env fs pm e)) as (-> & -> & ->).
  rewrite scan_entry_eq. by destruct (manifest_in _ _ _ _).
Qed.

(** A name that none of the scanned entries declares keeps its records. *)
Lemma scan_other es pm k :
  (∀ e m, e ∈ es → manifest_in env fs (baseDir pm) e = Some m → md_Name m ≠ k) →
  discovered (foldl (scan_entry env fs) pm es) !! k = discovered pm !! k ∧
  pluginPaths (foldl (scan_entry env fs) pm es) !! k = pluginPaths pm !! k.
Proof.
  revert pm. induction es as [|e es IH]; intros pm Hno; [done|].
  cbn. destruct (IH (scan_entry env fs pm e)) as [-> ->].
  { intros e' m' Hin. rewrite scan_entry_baseDir. apply Hno. by right. }
  rewrite scan_entry_eq.
  destruct (manifest_in env fs (baseDir pm) e) as [m|] eqn:Hm; [|done].
  cbn. assert (md_Name m ≠ k) by (eapply Hno; [by left | done]).
  by rewrite !lookup_insert_ne.
Qed.

(** Where a record found after the scan comes from. *)
Lemma scan_origin es pm k m :
  discovered (foldl (scan_entry env fs) pm es) !! k = Some m →
  discovered pm !! k = Some m ∨
  ∃ e, e ∈ es ∧ manifest_in env fs (baseDir pm) e = Some m ∧ md_Name m = k.
Proof.
  revert pm. induction es as [|e es IH]; intros pm Hk; [by left|].
  cbn in Hk. apply IH in Hk as [Hk|(e' & Hin & Hm & Hn)].
  - rewrite scan_entry_eq in Hk.
    destruct (manifest_in env fs (baseDir pm) e) as [m0|] eqn:Hm0; [|by left].
    cbn in Hk. destruct (decide (md_Name m0 = k)) as [<-|Hne].
    + rewrite lookup_insert_eq in Hk. injection Hk as <-.
      right. exists e. split; [by left | done].
    + rewrite lookup_insert_ne in Hk by done. by left.
  - rewrite scan_entry_baseDir in Hm. right. exists e'. split; [by right | done].
Qed.

Lemma scan_keeps es pm k :
  is_Some (discovered pm !! k) →
  is_Some (discovered (foldl (scan_entry env fs) pm es) !! k).
Proof.
  revert pm. induction es as [|e es IH]; intros pm Hk; [done|].
  cbn. apply IH. rewrite scan_entry_eq.
  destruct (manifest_in _ _ _ _) as [m|]; [|done]. cbn.
  destruct (decide (md_Name m = k)) as [<-|Hne];
    [by rewrite lookup_insert_eq | by rewrite lookup_insert_ne].
Qed.

Lemma record_discovered_consistent dir m pm :
  validateMetadata m = None → consistent pm → consistent (record_discovered dir m pm).
Proof.
  intros Hvalid (Hpl & Hdom & Hkeys & Hld). unfold consistent. cbn.
  split; [done|]. split; [|split].
  - intros k. destruct (decide (md_Name m = k)) as [<-|Hne].
    + by rewrite !lookup_insert_eq.
    + rewrite !lookup_insert_ne by done. apply Hdom.
  - intros k m'. destruct (decide (md_Name m = k)) as [<-|Hne].
    + rewrite lookup_insert_eq. by intros [= <-].
    + rewrite lookup_insert_ne by done. apply Hkeys.
  - intros k Hk. destruct (decide (md_Name m = k)) as [<-|Hne].
    + by rewrite lookup_insert_eq.
    + rewrite lookup_insert_ne by done. by apply Hld.
Qed.

Lemma scan_consistent es pm :
  consistent pm → consistent (foldl (scan_entry env fs) pm es).
Proof.
  revert pm. induction es as [|e es IH]; intros pm Hc; [done|].
  cbn. apply IH. rewrite scan_entry_eq.
  destruct (manifest_in env fs (baseDir pm) e) as [m|] eqn:Hm; [|done].
  apply record_discovered_consistent; [by eapply manifest_in_valid | done].
Qed.

Lemma DiscoverPlugins_consistent pm :
  consistent pm → consistent (snd (DiscoverPlugins env fs pm)).
Proof.
  intros Hc. unfold DiscoverPlugins.
  destruct (MkdirAll fs _); [done|]. destruct (ReadDir fs _) as [es|e]; [|done].
  by apply scan_consistent.
Qed.

End DiscoveryFacts.

(** X10. A successful [DiscoverPlugins] files every plugin under the
    manifest of the last directory, in scan order, that declares its name:
    if the entry [e] declares manifest [m] and no entry scanned after it
    declares the same name, then afterwards the name of [m] maps to [m]
    and to [e]'s directory, whatever was discovered before and whatever
    earlier entries declared. *)
Theorem DiscoverPlugins_last_declaration_wins
    (env : Env) (fs : FS) (pm : PluginManager)
    (es1 es2 : list DirEntry) (e : DirEntry) (m : PluginMetadata) :
  MkdirAll fs (baseDir pm) = None →
  ReadDir fs (baseDir pm) = inl (es1 ++ e :: es2) →
  manifest_in env fs (baseDir pm) e = Some m →
  (∀ e' m', e' ∈ es2 → manifest_in env fs (baseDir pm) e' = Some m' →
            md_Name m' ≠ md_Name m) →
  ∃ pm',
    DiscoverPlugins env fs pm = (None, pm') ∧
    discovered pm' !! md_Name m = Some m ∧
    pluginPaths pm' !! md_Name m
      = Some (filepath_Join env (baseDir pm) (de_Name e)).
Proof.
  intros Hmk Hrd Hm Hlast. unfold DiscoverPlugins. rewrite Hmk, Hrd.
  eexists. split; [reflexivity|].
  rewrite foldl_app. cbn [foldl].
  set (pm0 := foldl (scan_entry env fs) pm es1).
  assert (baseDir pm0 = baseDir pm) as Hbase by apply scan_baseDir.
  destruct (scan_other env fs es2 (scan_entry env fs pm0 e) (md_Name m)) as [-> ->].
  { intros e' m'. rewrite scan_entry_baseDir, Hbase. apply Hlast. }
  rewrite scan_entry_eq, Hbase, Hm. cbn. by rewrite !lookup_insert_eq.
Qed.

Lemma DiscoverPlugins_last_declaration_wins_witness :
  ∃ pm',
    DiscoverPlugins echo_env dup_fs (NewPluginManager "plugins" None) = (None, pm') ∧
    discovered pm' !! md_Name (dup_manifest "2.0.0") = Some (dup_manifest "2.0.0") ∧
    pluginPaths pm' !! md_Name (dup_manifest "2.0.0")
      = Some (filepath_Join echo_env (baseDir (NewPluginManager "plugins" None))
                (de_Name {| de_Name := "second"; de_IsDir := true |})).
Proof.
  apply (DiscoverPlugins_last_declaration_wins echo_env dup_fs
           (NewPluginManager "plugins" None)
           [ {| de_Name := "README.md"; de_IsDir := false |};
             {| de_Name := "first"; de_IsDir := true |} ]
           [ {| de_Name := "third"; de_IsDir := true |} ]
           {| de_Name := "second"; de_IsDir := true |}
           (dup_manifest "2.0.0")).
  - reflexivity.
  - reflexivity.
  - vm_compute. reflexivity.
  - intros e' m' Hin Hm. apply list_elem_of_singleton in Hin. subst e'.
    vm_compute in Hm. discriminate.
Defined.

(** X11. [DiscoverPlugins] only ever adds to what is known. If the base
    directory cannot be created or read it fails and changes nothing;
    otherwise it succeeds, leaves the loaded set, the registry and the
    base directory alone, keeps every name discovered earlier (also one
    whose directory is gone), keeps the record of every name that no
    scanned directory declares, and every manifest on record afterwards
    was either on record before or is declared by a scanned directory
    under that name. *)
Theorem DiscoverPlugins_only_adds (env : Env) (fs : FS) (pm : PluginManager) :
  ∃ err pm',
    DiscoverPlugins env fs pm = (err, pm') ∧
    (err ≠ None → pm' = pm) ∧
    (err = None ↔ MkdirAll fs (baseDir pm) = None ∧ ∃ es, ReadDir fs (baseDir pm) = inl es) ∧
    loaded pm' = loaded pm ∧ registry pm' = registry pm ∧ baseDir pm' = baseDir pm ∧
    (∀ k, is_Some (discovered pm !! k) → is_Some (discovered pm' !! k)) ∧
    (∀ k m, discovered pm' !! k = Some m →
       discovered pm !! k = Some m ∨
       ∃ es e, ReadDir fs (baseDir pm) = inl es ∧ e ∈ es ∧
               manifest_in env fs (baseDir pm) e = Some m ∧ md_Name m = k).
Proof.
  unfold DiscoverPlugins.
  destruct (MkdirAll fs (baseDir pm)) as [e|] eqn:Hmk.
  { eexists _, _. split; [reflexivity|]. repeat split; try done; eauto.
    by intros [? _]. }
  destruct (ReadDir fs (baseDir pm)) as [es|e] eqn:Hrd; cycle 1.
  { eexists _, _. split; [reflexivity|]. repeat split; try done; eauto.
    by intros [_ [? ?]]. }
  eexists _, _. split; [reflexivity|].
  destruct (scan_static env fs es pm) as (Hl & Hr & _).
  split; [done|]. split; [split; [eauto | done]|].
  split; [done|]. split; [done|]. split; [apply scan_baseDir|].
  split; [intros k; apply scan_keeps|].
  intros k m Hk. apply scan_origin in Hk as [Hk|(e & Hin & Hm & Hn)]; [by left|].
  right. by exists es, e.
Qed.

(** ** Plugin manager: the invariant *)

Section InvariantFacts.

Variable env : Env.
Implicit Types (pm : PluginManager) (w : World) (name : string).

(** What [LoadPlugin] can change in the three maps. *)
Lemma LoadPlugin_effect pm name w :
  discovered (snd (fst (LoadPlugin env name pm w))) = discovered pm ∧
  pluginPaths (snd (fst (LoadPlugin env name pm w))) = pluginPaths pm ∧
  (loaded (snd (fst (LoadPlugin env name pm w))) = loaded pm ∧
   fst (fst (LoadPlugin env name pm w)) ≠ None
   ∨ ∃ a, loaded (snd (fst (LoadPlugin env name pm w))) = <[name := a]> (loaded pm) ∧
          fst (fst (LoadPlugin env name pm w)) = None ∧
          loaded pm !! name = None ∧ is_Some (discovered pm !! name)).
Proof.
  destruct (resolves_dec env pm name) as [(info & dir & d & Hres)|Hno]; cycle 1.
  { destruct (LoadPlugin_unresolved env pm name w Hno) as (e & w' & ->).
    repeat split; try done. by left. }
  rewrite (LoadPlugin_resolved env pm name info dir d w Hres). cbn zeta.
  destruct Hres as (Hdisc & Hfree & _).
  destruct (dp_Initialize d _) as [e|]; [repeat split; try done; by left|].
  destruct (registry pm) as [r|].
  - destruct (RegisterTool _ r _) as [[[e|] r'] w2]; cbn.
    + repeat split; try done. by left.
    + repeat split; try done. right. eexists. by rewrite Hdisc.
  - cbn. repeat split; try done. right. eexists. by rewrite Hdisc.
Qed.

Lemma UnloadPlugin_effect pm name w :
  discovered (snd (fst (UnloadPlugin name pm w))) = discovered pm ∧
  pluginPaths (snd (fst (UnloadPlugin name pm w))) = pluginPaths pm ∧
  (loaded (snd (fst (UnloadPlugin name pm w))) = loaded pm ∨
   loaded (snd (fst (UnloadPlugin name pm w))) = delete name (loaded pm)).
Proof.
  unfold UnloadPlugin.
  destruct (loaded pm !! name) as [a|]; [|by repeat split; try left].
  unfold bind, call_Shutdown.
  destruct (registry pm) as [r|].
  - destruct (UnregisterTool name r w) as [[e r'] w1]. cbn.
    destruct (dp_Shutdown _ _); cbn; repeat split; try done; first [by left | by right].
  - cbn. destruct (dp_Shutdown _ _); cbn; repeat split; try done; first [by left | by right].
Qed.

Lemma LoadPlugin_consistent pm name w :
  consistent pm → consistent (snd (fst (LoadPlugin env name pm w))).
Proof.
  intros (Hpl & Hdom & Hkeys & Hld).
  destruct (LoadPlugin_effect pm name w) as (Hd & Hp & Hl).
  unfold consistent. rewrite LoadPlugin_plugins, Hd, Hp.
  split; [done|]. split; [done|]. split; [done|].
  destruct Hl as [[-> _]|(a & -> & _ & _ & Hdisc)]; [done|].
  intros k. destruct (decide (name = k)) as [<-|Hne]; [done|].
  rewrite lookup_insert_ne by done. apply Hld.
Qed.

Lemma UnloadPlugin_consistent pm name w :
  consistent pm → consistent (snd (fst (UnloadPlugin name pm w))).
Proof.
  intros (Hpl & Hdom & Hkeys & Hld).
  destruct (UnloadPlugin_effect pm name w) as (Hd & Hp & Hl).
  unfold consistent. rewrite UnloadPlugin_plugins, Hd, Hp.
  split; [done|]. split; [done|]. split; [done|].
  destruct Hl as [->| ->]; [done|].
  intros k. destruct (decide (name = k)) as [<-|Hne].
  - rewrite lookup_delete_eq. by intros [? ?].
  - rewrite lookup_delete_ne by done. apply Hld.
Qed.

Lemma ReloadPlugin_consistent pm name w :
  consistent pm → consistent (snd (fst (ReloadPlugin env name pm w))).
Proof.
  intros Hc. unfold ReloadPlugin.
  destruct (bool_decide _); [|by apply LoadPlugin_consistent].
  unfold bind. pose proof (UnloadPlugin_consistent pm name w Hc) as Hc1.
  destruct (UnloadPlugin name pm w) as [[[e|] pm1] w1]; cbn in Hc1; [done|].
  by apply LoadPlugin_consistent.
Qed.

(** The loop of [LoadAllPlugins], one step at a time. *)
Lemma load_each_cons name names pm w :
  load_each env (name :: names) pm w =
    let '(err, pm1, w1) := LoadPlugin env name pm w in
    let '(errors, pm2, w2) := load_each env names pm1 w1 in
    (match err with
     | Some e => ("plugin " +:+ name +:+ ": " +:+ e) :: errors
     | None => errors
     end, pm2, w2).
Proof.
  cbn [load_each]. unfold bind.
  destruct (LoadPlugin env name pm w) as [[err pm1] w1].
  by destruct (load_each env names pm1 w1) as [[errors pm2] w2].
Qed.

Lemma load_each_consistent names pm w :
  consistent pm → consistent (snd (fst (load_each env names pm w))).
Proof.
  revert pm w. induction names as [|name names IH]; intros pm w Hc; [done|].
  rewrite load_each_cons.
  pose proof (LoadPlugin_consistent pm name w Hc) as Hc1.
  destruct (LoadPlugin env name pm w) as [[err pm1] w1]. cbn in Hc1.
  specialize (IH pm1 w1 Hc1).
  by destruct (load_each env names pm1 w1) as [[errors pm2] w2].
Qed.

Lemma LoadAllPlugins_in_manager names pm w :
  snd (fst (LoadAllPlugins_in env names pm w)) = snd (fst (load_each env names pm w)).
Proof.
  unfold LoadAllPlugins_in, bind.
  by destruct (load_each env names pm w) as [[errors pm'] w'].
Qed.

End InvariantFacts.

(** X12. The manager the program builds stays consistent: for a new
    manager, and from then on after every [DiscoverPlugins], [LoadPlugin],
    [UnloadPlugin], [ReloadPlugin] and [LoadAllPlugins] (in any order of
    names), nothing is in [plugins], a name has a directory exactly when
    it has a manifest, every manifest is filed under its own name with
    its required fields present, and every loaded name is a discovered
    one. So [LoadPlugin] never fails for want of a plugin directory: for
    a discovered name that is not loaded it always gets to opening the
    unit. *)
Theorem manager_stays_consistent (env : Env) (fs : FS) :
  (∀ dir r, consistent (NewPluginManager dir r)) ∧
  (∀ pm, consistent pm →
     consistent (snd (DiscoverPlugins env fs pm)) ∧
     (∀ name w,
        consistent (snd (fst (LoadPlugin env name pm w))) ∧
        consistent (snd (fst (UnloadPlugin name pm w))) ∧
        consistent (snd (fst (ReloadPlugin env name pm w)))) ∧
     (∀ names w, consistent (snd (fst (LoadAllPlugins_in env names pm w)))) ∧
     (∀ w, consistent (snd (fst (LoadAllPlugins env pm w)))) ∧
     (∀ name w, is_Some (discovered pm !! name) → loaded pm !! name = None →
        ∃ dir tail, pluginPaths pm !! name = Some dir ∧
                    snd (LoadPlugin env name pm w)
                    = w ++ EvOpen (so_path env dir name) :: tail)).
Proof.
  split.
  { intros dir r. unfold consistent. cbn.
    split; [done|].
    split; [intros k; rewrite !lookup_empty; split; by intros [? ?]|].
    split; [intros k m; by rewrite lookup_empty|].
    intros k. rewrite lookup_empty. by intros [? ?]. }
  intros pm Hc. split; [by apply DiscoverPlugins_consistent|].
  split.
  { intros name w. split; [by apply LoadPlugin_consistent|].
    split; [by apply UnloadPlugin_consistent | by apply ReloadPlugin_consistent]. }
  split.
  { intros names w. rewrite LoadAllPlugins_in_manager. by apply load_each_consistent. }
  split.
  { intros w. unfold LoadAllPlugins. rewrite LoadAllPlugins_in_manager.
    by apply load_each_consistent. }
  intros name w [info Hdisc] Hfree.
  destruct Hc as (_ & Hdom & _).
  destruct (proj2 (Hdom name)) as [dir Hdir]; [by exists info|].
  exists dir.
  enough (∃ tail, snd (LoadPlugin env name pm w)
                  = w ++ EvOpen (so_path env dir name) :: tail)
    as [tail Htail] by (by exists tail).
  unfold LoadPlugin. rewrite Hdisc, Hfree, Hdir.
  destruct (plugin_Open env _) as [h|e]; [|exists []; reflexivity].
  destruct (Lookup h "Plugin") as [sym|e]; [|exists []; reflexivity].
  destruct (assert_DynamicPlugin sym) as [d|T]; [|exists []; reflexivity].
  unfold bind, call_Initialize.
  destruct (dp_Initialize d _) as [e|]; [eexists [_]; by_history|].
  destruct (registry pm) as [r|]; [|eexists [_]; by_history].
  pose proof (RegisterTool_adapter_world {| plugin := d; metadata := info |} r
    ((w ++ [EvOpen (so_path env dir name)]) ++ [EvInitialize (dp_id d)])) as Hw.
  destruct (RegisterTool _ r _) as [[[e|] r'] w2]; cbn in Hw; subst w2.
  - eexists [_; _]; by_history.
  - eexists [_]; by_history.
Qed.

(** ** Plugin manager: status and loading everything *)

Section StatusFacts.

Variable env : Env.
Implicit Types (pm : PluginManager) (w : World) (name : string).

Lemma LoadPlugin_grows pm name w k a :
  loaded pm !! k = Some a → loaded (snd (fst (LoadPlugin env name pm w))) !! k = Some a.
Proof.
  intros Hk. destruct (LoadPlugin_effect env pm name w) as (_ & _ & Hl).
  destruct Hl as [[-> _]|(a' & -> & _ & Hfree & _)]; [done|].
  rewrite lookup_insert_ne; [done|]. intros ->. congruence.
Qed.

(** What the loop of [LoadAllPlugins] leaves behind, for any order. *)
Lemma load_each_spec names pm w :
  discovered (snd (fst (load_each env names pm w))) = discovered pm ∧
  (∀ k a, loaded pm !! k = Some a →
          loaded (snd (fst (load_each env names pm w))) !! k = Some a) ∧
  (∀ k, is_Some (loaded (snd (fst (load_each env names pm w))) !! k) →
        is_Some (loaded pm !! k) ∨ k ∈ names) ∧
  (fst (fst (load_each env names pm w)) = [] →
   ∀ n, n ∈ names → is_Some (loaded (snd (fst (load_each env names pm w))) !! n)) ∧
  (∀ n, n ∈ names → is_Some (loaded pm !! n) →
        fst (fst (load_each env names pm w)) ≠ []).
Proof.
  revert pm w. induction names as [|name names IH]; intros pm w.
  { cbn. split; [done|]. split; [done|]. split; [by left|].
    split; [intros _ n Hn | intros n Hn]; by apply elem_of_nil in Hn. }
  rewrite load_each_cons.
  pose proof (LoadPlugin_effect env pm name w) as (Hd & _ & Hl).
  pose proof (LoadPlugin_grows pm name w) as Hgrow.
  destruct (LoadPlugin env name pm w) as [[err pm1] w1]. cbn [fst snd] in Hd, Hl, Hgrow.
  specialize (IH pm1 w1) as (IHd & IHgrow & IHfrom & IHall & IHerr).
  destruct (load_each env names pm1 w1) as [[errors pm2] w2].
  cbn [fst snd] in *.
  split; [congruence|]. split; [by eauto|]. split; [|split].
  - intros k Hk. apply IHfrom in Hk as [Hk|Hk]; [|right; by right].
    destruct Hl as [[Hl _]|(a & Hl & _)]; rewrite Hl in Hk; [by left|].
    destruct (decide (name = k)) as [<-|Hne]; [right; by left|].
    rewrite lookup_insert_ne in Hk by done. by left.
  - intros Herrs n Hn. destruct err as [e|]; [done|].
    apply elem_of_cons in Hn as [->|Hn]; [|by apply IHall].
    destruct Hl as [[_ Hl]|(a & Hl & _)]; [done|].
    exists a. apply IHgrow. by rewrite Hl, lookup_insert_eq.
  - intros n Hn [a Ha]. apply elem_of_cons in Hn as [->|Hn].
    + destruct Hl as [[_ Hl]|(a' & _ & _ & Hfree & _)]; [|congruence].
      by destruct err.
    + specialize (IHerr n Hn (ex_intro _ a (Hgrow n a Ha))).
      by destruct err.
Qed.


End StatusFacts.

(** X13. [ListPlugins] has one record for each name with a plugin
    directory and none for any other. In a manager whose [plugins] map is
    empty, as it is in every manager the program builds, each record says
    discovered and not loaded, with empty version and description and the
    zero load time, also for a plugin that is loaded; and [GetPlugin]
    finds nothing under any name. *)
Theorem ListPlugins_reports_nothing_loaded (pm : PluginManager) :
  plugins pm = ∅ →
  (∀ name,
     ListPlugins pm !! name =
       (λ path, {| ps_Name := name; ps_Version := ""; ps_Description := "";
                   ps_Directory := path; ps_Discovered := true;
                   ps_Loaded := false; ps_Enabled := false; ps_LoadedAt := 0 |})
       <$> pluginPaths pm !! name) ∧
  (∀ name, is_Some (ListPlugins pm !! name) ↔ is_Some (pluginPaths pm !! name)) ∧
  (∀ name, GetPlugin name pm = None).
Proof.
  intros Hempty.
  assert (∀ name,
     ListPlugins pm !! name =
       (λ path, {| ps_Name := name; ps_Version := ""; ps_Description := "";
                   ps_Directory := path; ps_Discovered := true;
                   ps_Loaded := false; ps_Enabled := false; ps_LoadedAt := 0 |})
       <$> pluginPaths pm !! name) as Hlist.
  { intros name. unfold ListPlugins. rewrite map_lookup_imap.
    destruct (pluginPaths pm !! name) as [path|]; [|done]. cbn.
    unfold status_of. by rewrite Hempty, lookup_empty. }
  split; [done|]. split.
  - intros name. rewrite Hlist. by rewrite fmap_is_Some.
  - intros name. unfold GetPlugin. by rewrite Hempty, lookup_empty.
Qed.

Lemma ListPlugins_reports_nothing_loaded_witness :
  is_Some (loaded echo_loaded !! "echo") ∧
  ((∀ name,
     ListPlugins echo_loaded !! name =
       (λ path, {| ps_Name := name; ps_Version := ""; ps_Description := "";
                   ps_Directory := path; ps_Discovered := true;
                   ps_Loaded := false; ps_Enabled := false; ps_LoadedAt := 0 |})
       <$> pluginPaths echo_loaded !! name) ∧
   (∀ name, is_Some (ListPlugins echo_loaded !! name)
            ↔ is_Some (pluginPaths echo_loaded !! name)) ∧
   (∀ name, GetPlugin name echo_loaded = None)).
Proof.
  split.
  - vm_compute. eexists. reflexivity.
  - apply (ListPlugins_reports_nothing_loaded echo_loaded). vm_compute. reflexivity.
Defined.






(** ** Transport: the factory and the configuration *)

(** X15. Both factory functions build an adapter exactly for the
    protocols [SupportedProtocols] lists, whatever the options: the
    adapter's [Name] is the protocol asked for and it is neither running
    nor healthy; any other protocol gives the "unsupported transport
    protocol" error. A factory whose server was not set refuses every
    request. *)
Theorem factory_supports_exactly_the_listed_protocols
    (rt : Runtime) (protocol : string) (options : gmap string (Any rt))
    (sse : transport.SSEConfig) (http : transport.HTTPConfig) :
  (match CreateTransportFromConfig protocol options with
   | inl a =>
     protocol ∈ SupportedProtocols ∧ transport.Name a = protocol ∧
     transport.is_running a = false ∧ transport.IsHealthy a = false
   | inr e =>
     (protocol ∉ SupportedProtocols) ∧
     e = "unsupported transport protocol: " +:+ protocol
   end) ∧
  (match transport.CreateTransport protocol sse http with
   | inl a =>
     protocol ∈ SupportedProtocols ∧ transport.Name a = protocol ∧
     transport.is_running a = false ∧ transport.IsHealthy a = false
   | inr e =>
     (protocol ∉ SupportedProtocols) ∧
     e = "unsupported transport protocol: " +:+ protocol
   end) ∧
  Factory_CreateTransport false protocol options = inr "MCP server not set in factory" ∧
  Factory_CreateTransport true protocol options
    = CreateTransportFromConfig protocol options.
Proof.
  assert (∀ p, p = "stdio" ∨ p = "sse" ∨ p = "http" ↔ p ∈ SupportedProtocols) as Hmem.
  { intros p. unfold SupportedProtocols.
    rewrite !elem_of_cons, elem_of_nil. tauto. }
  unfold CreateTransportFromConfig, transport.CreateTransport.
  split; [|split; [|done]].
  - destruct (decide (protocol = "stdio")) as [->|H1];
      [repeat split; try done; apply Hmem; auto|].
    destruct (decide (protocol = "sse")) as [->|H2];
      [repeat split; try done; apply Hmem; auto|].
    destruct (decide (protocol = "http")) as [->|H3];
      [repeat split; try done; apply Hmem; auto|].
    split; [|done]. rewrite <- Hmem. intuition.
  - destruct (decide (protocol = "stdio")) as [->|H1];
      [repeat split; try done; apply Hmem; auto|].
    destruct (decide (protocol = "sse")) as [->|H2];
      [repeat split; try done; apply Hmem; auto|].
    destruct (decide (protocol = "http")) as [->|H3];
      [repeat split; try done; apply Hmem; auto|].
    split; [|done]. rewrite <- Hmem. intuition.
Qed.

(** X16. The defaults of the options factory are those of the default
    configuration: when the bag holds no string under "host", no int or
    float under "port", no bool under "cors_enabled" and no parsable
    duration string under "timeout" (keys missing or of another type),
    [CreateTransportFromConfig] builds what [CreateTransportFromFullConfig]
    builds from [defaultConfig] with that protocol. In particular a port
    given as a string is ignored. *)
Theorem factory_defaults_are_the_config_defaults
    (rt : Runtime) (protocol : string) (options : gmap string (Any rt)) :
  (∀ s, options !! "host" ≠ Some (AString s)) →
  (∀ n, options !! "port" ≠ Some (AInt n)) →
  (∀ f, options !! "port" ≠ Some (AFloat f)) →
  (∀ b, options !! "cors_enabled" ≠ Some (ABool b)) →
  (∀ s d, options !! "timeout" = Some (AString s) → time_ParseDuration rt s ≠ inl d) →
  CreateTransportFromConfig protocol options
  = CreateTransportFromFullConfig (with_protocol protocol config.defaultConfig).
Proof.
  intros Hhost Hint Hfloat Hbool Htimeout.
  assert (getStringOption options "host" "localhost" = "localhost") as Hh.
  { unfold getStringOption. destruct (options !! "host") as [[s| | | |]|] eqn:E; try done.
    by destruct (Hhost s). }
  assert (∀ dflt, getIntOption options "port" dflt = dflt) as Hp.
  { intros dflt. unfold getIntOption.
    destruct (options !! "port") as [[|n|f| |]|] eqn:E; try done.
    - by destruct (Hint n).
    - by destruct (Hfloat f). }
  assert (getBoolOption options "cors_enabled" true = true) as Hc.
  { unfold getBoolOption.
    destruct (options !! "cors_enabled") as [[| | |b|]|] eqn:E; try done.
    by destruct (Hbool b). }
  assert (∀ dflt, getDurationOption options "timeout" dflt = dflt) as Ht.
  { intros dflt. unfold getDurationOption.
    destruct (options !! "timeout") as [[s| | | |]|] eqn:E; try done.
    destruct (time_ParseDuration rt s) as [d|e] eqn:Hd; [|done].
    by destruct (Htimeout s d). }
  unfold CreateTransportFromConfig, CreateTransportFromFullConfig,
    transport.CreateTransport.
  rewrite Hh, !Hp, Hc, Ht. reflexivity.
Qed.

Lemma factory_defaults_are_the_config_defaults_witness :
  CreateTransportFromConfig "sse" port_as_string
  = CreateTransportFromFullConfig (with_protocol "sse" config.defaultConfig).
Proof.
  apply (factory_defaults_are_the_config_defaults toy_runtime "sse" port_as_string).
  - intros s. vm_compute. discriminate.
  - intros n. vm_compute. discriminate.
  - intros f. vm_compute. discriminate.
  - intros b. vm_compute. discriminate.
  - intros s d. vm_compute. discriminate.
Defined.

(** X17. A configuration that passes [validate] always yields a
    transport: [CreateTransportFromFullConfig] succeeds with an adapter
    named after the configured protocol, both ports lie in 1..65535 and
    both timeouts are positive. The default configuration passes. *)
Theorem validated_config_yields_transport (cfg : config.Config) :
  config.validate cfg = None →
  ∃ a,
    CreateTransportFromFullConfig cfg = inl a ∧
    transport.Name a = config.Protocol (config.Transport cfg) ∧
    (1 <= config.sse_Port (config.SSE (config.Transport cfg)) <= 65535)%Z ∧
    (1 <= config.http_Port (config.HTTP (config.Transport cfg)) <= 65535)%Z ∧
    (0 < config.Request (config.SecTimeout (config.Security cfg)))%Z ∧
    (0 < config.Shutdown (config.SecTimeout (config.Security cfg)))%Z ∧
    config.validate config.defaultConfig = None.
Proof.
  unfold config.validate. cbn zeta.
  destruct (negb _) eqn:Hproto; [done|].
  destruct (_ || _) eqn:Hsse in |- *; [done|].
  destruct (_ || _) eqn:Hhttp in |- *; [done|].
  destruct (negb _) eqn:Hlevel in |- *; [done|].
  destruct (bool_decide _) eqn:Hreq in |- *; [done|].
  destruct (bool_decide _) eqn:Hshut in |- *; [done|].
  intros _.
  apply negb_false_iff in Hproto.
  apply orb_false_iff in Hsse as [Hs1 Hs2], Hhttp as [Hh1 Hh2].
  apply bool_decide_eq_false in Hs1, Hs2, Hh1, Hh2, Hreq, Hshut.
  unfold CreateTransportFromFullConfig, transport.CreateTransport.
  apply orb_true_iff in Hproto as [Hproto|Hproto];
    [apply orb_true_iff in Hproto as [Hproto|Hproto]|];
    apply bool_decide_eq_true in Hproto; rewrite Hproto; cbn;
    eexists; (split; [reflexivity|]); (split; [reflexivity|]);
    repeat split; lia.
Qed.

Lemma validated_config_yields_transport_witness :
  ∃ a,
    CreateTransportFromFullConfig config.defaultConfig = inl a ∧
    transport.Name a = config.Protocol (config.Transport config.defaultConfig) ∧
    (1 <= config.sse_Port (config.SSE (config.Transport config.defaultConfig)) <= 65535)%Z ∧
    (1 <= config.http_Port (config.HTTP (config.Transport config.defaultConfig)) <= 65535)%Z ∧
    (0 < config.Request (config.SecTimeout (config.Security config.defaultConfig)))%Z ∧
    (0 < config.Shutdown (config.SecTimeout (config.Security config.defaultConfig)))%Z ∧
    config.validate config.defaultConfig = None.
Proof.
  apply (validated_config_yields_transport config.defaultConfig).
  vm_compute. reflexivity.
Defined.

(** ** Transport: the life cycle *)

(** X18. Start, stop, start again. On an adapter that is not running,
    [Start] succeeds and leaves it running; it is healthy at once, except
    that the stdio adapter started under a context that is already
    canceled is running but unhealthy. [Stop] then leaves it not running
    and unhealthy whatever it returns: nil for stdio, the result of the
    server's graceful shutdown for the two HTTP-based adapters (the
    running flag is cleared even when that shutdown fails). After that a
    further [Stop] is a no-op and [Start] succeeds again. *)
Theorem Start_Stop_Start
    (net : transport.Net) (c : transport.Context) (a : transport.TransportAdapter) :
  transport.is_running a = false →
  ∃ a1 e a2,
    transport.Start c a = (None, a1) ∧
    transport.is_running a1 = true ∧
    transport.IsHealthy a1
      = (match a with
         | transport.STDIO _ => negb (transport.canceled c)
         | _ => true
         end) ∧
    transport.Stop net a1 = (e, a2) ∧
    transport.is_running a2 = false ∧ transport.IsHealthy a2 = false ∧
    (match a1 with
     | transport.STDIO _ => e = None
     | transport.SSE s =>
       ∃ srv, transport.sse_httpServer s = Some srv ∧ e = transport.Shutdown net srv
     | transport.HTTP h =>
       ∃ srv, transport.httpServer h = Some srv ∧ e = transport.Shutdown net srv
     end) ∧
    transport.Stop net a2 = (None, a2) ∧
    fst (transport.Start c a2) = None.
Proof.
  destruct a as [s|s|h]; cbn [transport.is_running]; intros Hrun.
  - cbn. unfold transport.STDIO_Start. rewrite Hrun.
    eexists _, _, _. split; [reflexivity|]. cbn. repeat split.
  - cbn. unfold transport.SSE_Start. rewrite Hrun.
    eexists _, _, _. split; [reflexivity|]. cbn. repeat split. by eexists.
  - cbn. unfold transport.HTTP_Start. rewrite Hrun.
    eexists _, _, _. split; [reflexivity|]. cbn. repeat split. by eexists.
Qed.

Lemma Start_Stop_Start_witness :
  ∃ a1 e a2,
    transport.Start background (transport.HTTP (transport.NewHTTPAdapter busy_config))
      = (None, a1) ∧
    transport.is_running a1 = true ∧
    transport.IsHealthy a1 = true ∧
    transport.Stop busy_net a1 = (e, a2) ∧
    transport.is_running a2 = false ∧ transport.IsHealthy a2 = false ∧
    (match a1 with
     | transport.STDIO _ => e = None
     | transport.SSE s =>
       ∃ srv, transport.sse_httpServer s = Some srv ∧ e = transport.Shutdown busy_net srv
     | transport.HTTP h =>
       ∃ srv, transport.httpServer h = Some srv ∧ e = transport.Shutdown busy_net srv
     end) ∧
    transport.Stop busy_net a2 = (None, a2) ∧
    fst (transport.Start background a2) = None.
Proof.
  apply (Start_Stop_Start busy_net background
           (transport.HTTP (transport.NewHTTPAdapter busy_config))).
  reflexivity.
Defined.

(** X19. A restart can be undone by the goroutine of the previous run.
    Take an HTTP adapter through [Start], [Stop], [Start]: it is running
    and healthy on its second server. The goroutine of the first [Start]
    still has to run its deferred function, after its [ListenAndServe]
    returned [ErrServerClosed] because of the [Stop]; when it does so
    only now, it logs nothing and clears [running]. The adapter then
    reports unhealthy and [Stop] is a no-op that never shuts the second
    server down, while a further [Start] is accepted. The SSE adapter
    behaves the same. *)
Theorem stale_goroutine_undoes_restart
    (net : transport.Net) (c : transport.Context)
    (h : transport.HTTPAdapter) (s : transport.SSEAdapter) :
  transport.running h = false →
  transport.sse_running s = false →
  (∃ h3 h4 srv,
     transport.HTTP_Start c
       (snd (transport.HTTP_Stop net (snd (transport.HTTP_Start c h)))) = (None, h3) ∧
     transport.HTTP_IsHealthy h3 = true ∧
     transport.httpServer h3 = Some srv ∧
     transport.HTTP_serve_returns transport.ErrServerClosed h3 = ([], h4) ∧
     transport.HTTP_IsHealthy h4 = false ∧
     transport.httpServer h4 = Some srv ∧
     transport.HTTP_Stop net h4 = (None, h4) ∧
     fst (transport.HTTP_Start c h4) = None) ∧
  (∃ s3 s4 srv,
     transport.SSE_Start c
       (snd (transport.SSE_Stop net (snd (transport.SSE_Start c s)))) = (None, s3) ∧
     transport.SSE_IsHealthy s3 = true ∧
     transport.sse_httpServer s3 = Some srv ∧
     transport.SSE_serve_returns transport.ErrServerClosed s3 = ([], s4) ∧
     transport.SSE_IsHealthy s4 = false ∧
     transport.sse_httpServer s4 = Some srv ∧
     transport.SSE_Stop net s4 = (None, s4) ∧
     fst (transport.SSE_Start c s4) = None).
Proof.
  intros Hh Hs. split.
  - unfold transport.HTTP_Start at 2. rewrite Hh. cbn.
    eexists _, _, _. split; [reflexivity|]. cbn. repeat split.
  - unfold transport.SSE_Start at 2. rewrite Hs. cbn.
    eexists _, _, _. split; [reflexivity|]. cbn. repeat split.
Qed.

Lemma stale_goroutine_undoes_restart_witness :
  (∃ h3 h4 srv,
     transport.HTTP_Start background
       (snd (transport.HTTP_Stop busy_net
               (snd (transport.HTTP_Start background
                       (transport.NewHTTPAdapter busy_config))))) = (None, h3) ∧
     transport.HTTP_IsHealthy h3 = true ∧
     transport.httpServer h3 = Some srv ∧
     transport.HTTP_serve_returns transport.ErrServerClosed h3 = ([], h4) ∧
     transport.HTTP_IsHealthy h4 = false ∧
     transport.httpServer h4 = Some srv ∧
     transport.HTTP_Stop busy_net h4 = (None, h4) ∧
     fst (transport.HTTP_Start background h4) = None) ∧
  (∃ s3 s4 srv,
     transport.SSE_Start background
       (snd (transport.SSE_Stop busy_net
               (snd (transport.SSE_Start background
                       (transport.NewSSEAdapter
                          {| transport.sse_Host := "localhost";
                             transport.sse_Port := 26841;
                             transport.CORSEnabled := true |}))))) = (None, s3) ∧
     transport.SSE_IsHealthy s3 = true ∧
     transport.sse_httpServer s3 = Some srv ∧
     transport.SSE_serve_returns transport.ErrServerClosed s3 = ([], s4) ∧
     transport.SSE_IsHealthy s4 = false ∧
     transport.sse_httpServer s4 = Some srv ∧
     transport.SSE_Stop busy_net s4 = (None, s4) ∧
     fst (transport.SSE_Start background s4) = None).
Proof.
  apply (stale_goroutine_undoes_restart busy_net background
           (transport.NewHTTPAdapter busy_config)
           (transport.NewSSEAdapter
              {| transport.sse_Host := "localhost"; transport.sse_Port := 26841;
                 transport.CORSEnabled := true |})).
  - reflexivity.
  - reflexivity.
Defined.

(** ** Metrics: the counters, the maximum and the average *)

Section CounterFacts.

Import server.

Local Open Scope Z_scope.

Implicit Types (m : MetricsCollector) (rs : list Request).

(** The fields one [RecordRequest] writes, besides the window. *)
Lemma RecordRequest_fields d t e m m1 :
  RecordRequest d t e m = Some m1 →
  startTime m1 = startTime m ∧
  requestCount m1 = wrap64 (requestCount m + 1) ∧
  errorCount m1 = (if e then wrap64 (errorCount m + 1) else errorCount m) ∧
  maxResponseTime m1 = Z.max (maxResponseTime m) d ∧
  toolCallCount m1
    = (if decide (t = "") then toolCallCount m
       else <[t := wrap64 (default 0 (toolCallCount m !! t) + 1)]> (toolCallCount m)).
Proof.
  unfold RecordRequest. cbn zeta. destruct (go_div _ _) as [avg|]; [|done].
  intros [= <-]. cbn. repeat split; try done.
  case_decide; lia.
Qed.

Lemma wrap64_0 : wrap64 0 = 0.
Proof. reflexivity. Qed.

Lemma record_all_counters rs m m' :
  record_all rs m = Some m' →
  in_int64 (requestCount m) → in_int64 (errorCount m) →
  startTime m' = startTime m ∧
  requestCount m' = wrap64 (requestCount m + Z.of_nat (length rs)) ∧
  errorCount m' = wrap64 (errorCount m + Z.of_nat (count_errors rs)) ∧
  maxResponseTime m' = foldl Z.max (maxResponseTime m) (duration <$> rs).
Proof.
  revert m. induction rs as [|r rs IH]; intros m Hrun Hrc Hec.
  - injection Hrun as <-. cbn. rewrite !Z.add_0_r, !wrap64_in_range by done. done.
  - cbn [record_all] in Hrun.
    destruct (RecordRequest _ _ _ m) as [m1|] eqn:Hstep; [|done].
    apply RecordRequest_fields in Hstep as (Hst & Hr1 & He1 & Hm1 & _).
    destruct (IH m1 Hrun) as (-> & -> & -> & ->).
    { rewrite Hr1. apply wrap64_range. }
    { rewrite He1. destruct (isError r); [apply wrap64_range | done]. }
    rewrite Hst, Hr1, He1, Hm1. cbn [length count_errors fmap list_fmap foldl].
    split; [done|]. split; [|split; [|done]].
    + rewrite wrap64_add_l. f_equal. lia.
    + destruct (isError r).
      * rewrite wrap64_add_l. f_equal. lia.
      * f_equal; lia.
Qed.

Lemma record_all_tools rs m m' t :
  record_all rs m = Some m' →
  (∀ k v, toolCallCount m !! k = Some v → in_int64 v) →
  toolCallCount m' !! t =
    if decide (t = "" ∨ count_tool t rs = 0%nat) then toolCallCount m !! t
    else Some (wrap64 (default 0 (toolCallCount m !! t) + Z.of_nat (count_tool t rs))).
Proof.
  revert m. induction rs as [|r rs IH]; intros m Hrun Hin.
  - injection Hrun as <-. cbn. rewrite decide_True by (by right). done.
  - cbn [record_all] in Hrun.
    destruct (RecordRequest _ _ _ m) as [m1|] eqn:Hstep; [|done].
    apply RecordRequest_fields in Hstep as (_ & _ & _ & _ & Htc).
    rewrite (IH m1 Hrun); cycle 1.
    { intros k v. rewrite Htc. case_decide; [apply Hin|].
      destruct (decide (toolName r = k)) as [<-|Hne].
      - rewrite lookup_insert_eq. intros [= <-]. apply wrap64_range.
      - rewrite lookup_insert_ne by done. apply Hin. }
    cbn [count_tool]. rewrite Htc.
    destruct (decide (t = "")) as [->|Hne].
    { destruct (decide (toolName r = "")) as [Hr|Hr];
        do 2 (rewrite decide_True by (by left)); [done|].
      by rewrite lookup_insert_ne. }
    destruct (decide (toolName r = t)) as [Ht|Ht]; cbn [Nat.add].
    + rewrite (decide_False (P := t = "" ∨ S _ = 0%nat)) by (intros [?|?]; done).
      rewrite Ht, (decide_False (P := t = "")) by done.
      rewrite lookup_insert_eq. cbn [default].
      unfold id.
      destruct (decide (t = "" ∨ count_tool t rs = 0%nat)) as [[?|Hz]|Hz]; [done| |].
      * rewrite Hz. do 2 f_equal; lia.
      * rewrite wrap64_add_l. do 2 f_equal; lia.
    + assert (toolCallCount m1 !! t = toolCallCount m !! t) as Hsame.
      { rewrite Htc. case_decide; [done|]. by rewrite lookup_insert_ne. }
      rewrite <- Htc, Hsame. by repeat case_decide.
Qed.

Lemma foldl_max_bounds (l : list Z) (acc : Z) :
  acc <= foldl Z.max acc l ∧ Forall (λ d, d <= foldl Z.max acc l) l.
Proof.
  revert acc. induction l as [|x l IH]; intros acc; cbn; [split; [lia | done]|].
  destruct (IH (Z.max acc x)) as [Hacc Hall].
  split; [lia|]. apply Forall_cons. split; [lia | done].
Qed.

Lemma sum_of_bounds (l : list Z) (M : Z) :
  Forall (λ d, 0 <= d <= M) l → 0 <= sum_of l <= Z.of_nat (length l) * M.
Proof.
  induction 1 as [|x l Hx Hl IH]; cbn [sum_of foldr length]; [lia|].
  fold (sum_of l). lia.
Qed.

End CounterFacts.

(** X20. After any sequence of [RecordRequest] calls on a new collector
    the request counter is the number of calls and the error counter the
    number of calls flagged as errors, both as 64-bit integers; while the
    number of calls fits in 64 bits they are exact and the error counter
    never exceeds the request counter. The start time is never changed. *)
Theorem counters_count_the_calls (now : Z) (rs : list server.Request) :
  ∃ m,
    server.record_all rs (server.NewMetricsCollector now) = Some m ∧
    server.startTime m = now ∧
    server.requestCount m = server.wrap64 (Z.of_nat (length rs)) ∧
    server.errorCount m = server.wrap64 (Z.of_nat (count_errors rs)) ∧
    ((Z.of_nat (length rs) < 2 ^ 63)%Z →
     server.requestCount m = Z.of_nat (length rs) ∧
     server.errorCount m = Z.of_nat (count_errors rs) ∧
     (0 <= server.errorCount m <= server.requestCount m)%Z).
Proof.
  destruct (record_all_window rs (server.NewMetricsCollector now)) as (m & Hrun & _).
  { cbn. lia. }
  exists m. split; [done|].
  destruct (record_all_counters rs _ m Hrun) as (Hst & Hrc & Hec & _);
    [by vm_compute | by vm_compute |].
  cbn [server.NewMetricsCollector server.startTime server.requestCount
       server.errorCount] in Hst, Hrc, Hec.
  rewrite Z.add_0_l in Hrc, Hec.
  split; [done|]. split; [done|]. split; [done|].
  intros Hfits.
  assert (count_errors rs ≤ length rs)%nat as Hle.
  { clear. induction rs as [|r rs IH]; cbn; [lia|]. destruct (server.isError r); lia. }
  rewrite Hrc, Hec, !wrap64_in_range by (unfold server.in_int64; lia). lia.
Qed.

(** X21. After any sequence of [RecordRequest] calls on a new collector,
    the per-tool counter of a tool is the number of calls made with that
    tool name (as a 64-bit integer), a tool that was never named has no
    counter, and calls with an empty tool name are counted under no tool
    at all. *)
Theorem toolCallCount_counts_per_tool
    (now : Z) (rs : list server.Request) (t : string) :
  ∃ m,
    server.record_all rs (server.NewMetricsCollector now) = Some m ∧
    server.toolCallCount m !! t =
      (if decide (t = "" ∨ count_tool t rs = 0%nat) then None
       else Some (server.wrap64 (Z.of_nat (count_tool t rs)))) ∧
    server.toolCallCount m !! "" = None.
Proof.
  destruct (record_all_window rs (server.NewMetricsCollector now)) as (m & Hrun & _).
  { cbn. lia. }
  exists m. split; [done|].
  assert (∀ k v, server.toolCallCount (server.NewMetricsCollector now) !! k = Some v →
                 server.in_int64 v) as Hin.
  { intros k v. cbn. by rewrite lookup_empty. }
  split.
  - rewrite (record_all_tools rs _ m t Hrun Hin). cbn.
    rewrite lookup_empty. cbn. case_decide; [done|]. do 2 f_equal.
  - rewrite (record_all_tools rs _ m "" Hrun Hin). cbn.
    rewrite decide_True by (by left). apply lookup_empty.
Qed.

(** X22. [maxResponseTime] is the largest duration of all the calls ever
    recorded, never below zero and not limited to the retained window.
    When every duration lies between 0 and 2^53 nanoseconds, the stored
    average is between 0 and that maximum. *)
Theorem maxResponseTime_bounds_the_average (now : Z) (rs : list server.Request) :
  ∃ m,
    server.record_all rs (server.NewMetricsCollector now) = Some m ∧
    server.maxResponseTime m = max_of (server.duration <$> rs) ∧
    (0 <= server.maxResponseTime m)%Z ∧
    Forall (λ r, server.duration r <= server.maxResponseTime m)%Z rs ∧
    (Forall (λ r, 0 <= server.duration r < 2 ^ 53)%Z rs →
     (0 <= server.avgResponseTime m <= server.maxResponseTime m)%Z).
Proof.
  destruct (record_all_window rs (server.NewMetricsCollector now))
    as (m & Hrun & Hrts & Havg).
  { cbn. lia. }
  exists m. split; [done|].
  destruct (record_all_counters rs _ m Hrun) as (_ & _ & _ & Hmax);
    [by vm_compute | by vm_compute |].
  cbn [server.NewMetricsCollector server.maxResponseTime] in Hmax.
  cbn [server.responseTimes server.NewMetricsCollector app] in Hrts.
  destruct (foldl_max_bounds (server.duration <$> rs) 0) as [Hnonneg Hall].
  fold (max_of (server.duration <$> rs)) in Hmax, Hnonneg, Hall.
  rewrite <- Hmax in Hnonneg, Hall.
  pose proof (proj1 (Forall_fmap _ _ _) Hall) as HallR.
  split; [done|]. split; [done|]. split; [exact HallR|].
  intros Hrange. destruct rs as [|r rs'].
  { injection Hrun as <-. cbn. lia. }
  set (rs := r :: rs') in *.
  assert (Forall (λ d, 0 <= d <= server.maxResponseTime m)%Z (server.responseTimes m))
    as Hwin.
  { rewrite Hrts. unfold last_n. apply Forall_drop.
    apply (proj2 (Forall_fmap _ _ _)).
    pose proof (proj1 (Forall_forall _ _) HallR) as Hup.
    pose proof (proj1 (Forall_forall _ _) Hrange) as Hlow.
    apply Forall_forall. intros x Hx. cbn.
    specialize (Hup x Hx). specialize (Hlow x Hx).
    unfold compose in Hup |- *. cbn beta in Hup, Hlow |- *. lia. }
  assert (0 < length (server.responseTimes m) ≤ 1000)%nat as Hlen.
  { rewrite Hrts, length_last_n, length_fmap. unfold rs. cbn [length]. lia. }
  assert (server.maxResponseTime m < 2 ^ 53)%Z as Hsmall.
  { rewrite Hmax. unfold max_of.
    assert (∀ l acc, (0 <= acc < 2 ^ 53)%Z → Forall (λ d, 0 <= d < 2 ^ 53)%Z l →
                     (foldl Z.max acc l < 2 ^ 53)%Z) as Hb.
    { clear. induction l as [|x l IH]; intros acc Hacc Hl; cbn; [lia|].
      apply Forall_cons in Hl as [Hx Hl]. apply IH; [lia | done]. }
    apply Hb; [lia|]. by apply Forall_fmap. }
  pose proof (sum_of_bounds _ _ Hwin) as Hsum.
  rewrite Havg by done.
  rewrite wrap64_in_range by (unfold server.in_int64; nia).
  rewrite Z.quot_div_nonneg by lia.
  split; [apply Z.div_pos; lia|].
  apply Z.div_le_upper_bound; lia.
Qed.

(** ** Application shutdown *)

Section ShutdownFacts.

Implicit Types (pm : PluginManager) (w : World) (name : string).

Lemma UnloadPlugin_not_loaded name pm w :
  loaded pm !! name = None →
  UnloadPlugin name pm w = (Some ("plugin " +:+ name +:+ " not loaded"), pm, w).
Proof. intros Hnone. unfold UnloadPlugin. by rewrite Hnone. Qed.

Lemma unload_each_cons name names pm w :
  unload_each (name :: names) pm w =
    let '(err, pm1, w1) := UnloadPlugin name pm w in
    let '(errors, pm2, w2) := unload_each names pm1 w1 in
    (match err with Some e => e :: errors | None => errors end, pm2, w2).
Proof.
  cbn [unload_each]. unfold bind.
  destruct (UnloadPlugin name pm w) as [[err pm1] w1].
  by destruct (unload_each names pm1 w1) as [[errors pm2] w2].
Qed.

(** The unload loop never loads anything, and every name it meets that
    is not loaded costs an error. *)
Lemma unload_each_spec names pm w :
  (∀ k, loaded pm !! k = None →
        loaded (snd (fst (unload_each names pm w))) !! k = None) ∧
  (∀ n, n ∈ names → loaded pm !! n = None →
        fst (fst (unload_each names pm w)) ≠ []).
Proof.
  revert pm w. induction names as [|name names IH]; intros pm w.
  { split; [done|]. intros n Hn. by apply elem_of_nil in Hn. }
  rewrite unload_each_cons.
  pose proof (UnloadPlugin_effect pm name w) as (_ & _ & Hl).
  pose proof (UnloadPlugin_not_loaded name pm w) as Hnot.
  destruct (UnloadPlugin name pm w) as [[err pm1] w1]. cbn [fst snd] in Hl.
  assert (∀ k, loaded pm !! k = None → loaded pm1 !! k = None) as Hshrink.
  { intros k Hk. destruct Hl as [->| ->]; [done|].
    destruct (decide (name = k)) as [<-|Hne];
      [apply lookup_delete_eq | by rewrite lookup_delete_ne]. }
  destruct (IH pm1 w1) as [IHshrink IHerr].
  destruct (unload_each names pm1 w1) as [[errors pm2] w2]. cbn [fst snd] in *.
  split; [by eauto|].
  intros n Hn Hnone. apply elem_of_cons in Hn as [->|Hn].
  - specialize (Hnot Hnone). by injection Hnot as -> _ _.
  - specialize (IHerr n Hn (Hshrink n Hnone)). by destruct err.
Qed.

Lemma Stop_unhealthy (net : transport.Net) (a : transport.TransportAdapter) :
  transport.IsHealthy (snd (transport.Stop net a)) = false.
Proof.
  destruct a as [s|s|h]; cbn.
  - unfold transport.STDIO_Stop.
    destruct (transport.stdio_running s) eqn:Hrun; cbn; [done|].
    unfold transport.STDIO_IsHealthy. by rewrite Hrun.
  - unfold transport.SSE_Stop.
    destruct (transport.sse_running s) eqn:Hrun,
             (transport.sse_httpServer s) eqn:Hsrv; cbn;
      unfold transport.SSE_IsHealthy; cbn; by rewrite ?Hrun, ?Hsrv.
  - unfold transport.HTTP_Stop.
    destruct (transport.running h) eqn:Hrun,
             (transport.httpServer h) eqn:Hsrv; cbn;
      unfold transport.HTTP_IsHealthy; cbn; by rewrite ?Hrun, ?Hsrv.
Qed.

End ShutdownFacts.

(** What [App.Shutdown] leaves behind, for any order of the names. *)
Lemma App_Shutdown_in_spec
    (net : transport.Net) (names : list string) (a : App) (w : World) :
  ∃ err a' w',
    App_Shutdown_in net names a w = (err, a', w') ∧
    app_canceled a' = true ∧
    transport.IsHealthy (app_transport a') = false ∧
    (∀ r', registry (app_pluginManager a') = Some r' → tools r' = ∅) ∧
    (∀ k, loaded (app_pluginManager a) !! k = None →
          loaded (app_pluginManager a') !! k = None) ∧
    (fst (transport.Stop net (app_transport a)) ≠ None → err ≠ None) ∧
    (∀ wt e, app_configWatcher a = Some wt → w_running wt = true →
             w_Close wt = Some e → err ≠ None) ∧
    (∀ n, n ∈ names → loaded (app_pluginManager a) !! n = None → err ≠ None).
Proof.
  unfold App_Shutdown_in.
  set (wres := match app_configWatcher a with
               | Some wt => let '(e, wt') := Watcher_Stop wt in (e, Some wt')
               | None => (None, None)
               end).
  assert (∀ wt e, app_configWatcher a = Some wt → w_running wt = true →
                  w_Close wt = Some e → fst wres ≠ None) as Hw.
  { intros wt e Hwt Hrun Hclose. unfold wres. rewrite Hwt.
    unfold Watcher_Stop. by rewrite Hrun, Hclose. }
  destruct wres as [werr watcher]. cbn [fst] in Hw.
  pose proof (Stop_unhealthy net (app_transport a)) as Hunhealthy.
  destruct (transport.Stop net (app_transport a)) as [terr adapter].
  cbn [fst snd] in Hunhealthy |- *.
  unfold bind.
  destruct (unload_each_spec names (app_pluginManager a) w) as [Hshrink Herr].
  destruct (unload_each names (app_pluginManager a) w) as [[perrs pm1] w1].
  cbn [fst snd] in Hshrink, Herr.
  assert (∃ r' w2, Server_Stop (registry pm1) w1 = (None, r', w2) ∧
                   ∀ r, r' = Some r → tools r = ∅) as (r' & w2 & -> & Hempty).
  { unfold Server_Stop. destruct (registry pm1) as [r|]; [|by eexists _, _].
    unfold bind. rewrite Registry_Shutdown_unfold. cbn [ret snd].
    eexists _, _. split; [reflexivity|]. by intros ? [= <-]. }
  eexists _, _, _. split; [reflexivity|]. cbn.
  split; [done|]. split; [done|]. split; [exact Hempty|]. split; [exact Hshrink|].
  split; [|split].
  - intros Ht. destruct terr as [e|]; [|done]. by destruct werr.
  - intros wt e Hwt Hrun Hclose. specialize (Hw wt e Hwt Hrun Hclose).
    by destruct werr.
  - intros n Hn Hnone. specialize (Herr n Hn Hnone).
    destruct werr, terr, perrs; done.
Qed.

Lemma ListPlugins_names (pm : PluginManager) (n : string) :
  is_Some (pluginPaths pm !! n) → n ∈ (map_to_list (ListPlugins pm)).*1.
Proof.
  intros [path Hpath]. apply list_elem_of_fmap.
  exists (n, status_of pm n path). split; [done|].
  apply elem_of_map_to_list. unfold ListPlugins.
  by rewrite map_lookup_imap, Hpath.
Qed.

(** X23. [App.Shutdown], whatever the order in which it meets the plugin
    names: afterwards the root context is canceled, the transport is
    unhealthy, the registry's catalogue is empty and no plugin has been
    loaded that was not loaded before. It reports an error as soon as a
    running configuration watcher cannot be closed, the transport's
    [Stop] fails, or one of the names it goes through is not loaded: so
    a discovered plugin that never loaded makes every shutdown end in
    "shutdown had N errors". *)
Theorem App_Shutdown_outcome
    (net : transport.Net) (names : list string) (a : App) (w : World) :
  (∃ err a' w',
     App_Shutdown_in net names a w = (err, a', w') ∧
     app_canceled a' = true ∧
     transport.IsHealthy (app_transport a') = false ∧
     (∀ r', registry (app_pluginManager a') = Some r' → tools r' = ∅) ∧
     (∀ k, loaded (app_pluginManager a) !! k = None →
           loaded (app_pluginManager a') !! k = None) ∧
     (fst (transport.Stop net (app_transport a)) ≠ None → err ≠ None) ∧
     (∀ wt e, app_configWatcher a = Some wt → w_running wt = true →
              w_Close wt = Some e → err ≠ None) ∧
     (∀ n, n ∈ names → loaded (app_pluginManager a) !! n = None → err ≠ None)) ∧
  (∀ n, is_Some (pluginPaths (app_pluginManager a) !! n) →
        loaded (app_pluginManager a) !! n = None →
        fst (fst (App_Shutdown net a w)) ≠ None).
Proof.
  split; [apply App_Shutdown_in_spec|].
  intros n Hpath Hnone. unfold App_Shutdown.
  destruct (App_Shutdown_in_spec net
              (map_to_list (ListPlugins (app_pluginManager a))).*1 a w)
    as (err & a' & w' & -> & _ & _ & _ & _ & _ & _ & Herr).
  cbn [fst]. apply (Herr n); [by apply ListPlugins_names | done].
Qed.

(** ** Application start-up: setting up the plugins *)

(** X24. [setupPlugins] fails exactly when discovery fails, and then
    nothing was loaded; a failure of [LoadAllPlugins] never reaches the
    caller. On a consistent manager the list of loaded tools it logs is
    always empty, however many plugins were loaded, and the manager it
    leaves is consistent. *)
Theorem setupPlugins_outcome (env : Env) (fs : FS) (pm : PluginManager) (w : World) :
  consistent pm →
  ∃ err pm' logged w',
    setupPlugins env fs pm w = (err, pm', logged, w') ∧
    err = fst (DiscoverPlugins env fs pm) ∧
    (err ≠ None → pm' = pm ∧ w' = w) ∧
    logged = [] ∧
    consistent pm' ∧
    (∀ k a, loaded pm !! k = Some a → loaded pm' !! k = Some a).
Proof.
  intros Hc. unfold setupPlugins.
  pose proof (DiscoverPlugins_consistent env fs pm Hc) as Hc1.
  destruct (DiscoverPlugins env fs pm) as [[e|] pm1] eqn:Hdisc.
  { assert (pm1 = pm) as ->.
    { revert Hdisc. unfold DiscoverPlugins.
      destruct (MkdirAll fs _); [by intros [= _ <-]|].
      destruct (ReadDir fs _); [done | by intros [= _ <-]]. }
    eexists _, _, _, _. split; [reflexivity|]. do 3 (split; [done|]).
    split; [exact Hc | done]. }
  cbn [snd] in Hc1. unfold bind, LoadAllPlugins.
  assert (loaded pm1 = loaded pm) as Hsame.
  { revert Hdisc. unfold DiscoverPlugins.
    destruct (MkdirAll fs _); [done|]. destruct (ReadDir fs _) as [es|]; [|done].
    intros [= <-]. apply scan_static. }
  pose proof (LoadAllPlugins_in_manager env (map_to_list (discovered pm1)).*1 pm1 w)
    as Hpm.
  pose proof (load_each_consistent env (map_to_list (discovered pm1)).*1 pm1 w Hc1)
    as Hc2.
  destruct (load_each_spec env (map_to_list (discovered pm1)).*1 pm1 w)
    as (_ & Hgrow & _).
  rewrite <- Hpm in Hc2, Hgrow.
  destruct (LoadAllPlugins_in env _ pm1 w) as [[lerr pm2] w2]. cbn [fst snd] in *.
  eexists _, _, _, _. split; [reflexivity|].
  split; [done|]. split; [done|]. split; [|split; [done|]].
  - destruct Hc2 as (Hempty & _).
    assert (filter (λ kv : string * PluginStatus, ps_Loaded kv.2 = true)
              (ListPlugins pm2) = ∅) as ->; [|by rewrite map_to_list_empty].
    apply map_empty_filter_2. intros k st Hst. cbn.
    unfold ListPlugins in Hst. rewrite map_lookup_imap in Hst.
    destruct (pluginPaths pm2 !! k) as [path|]; [|done]. cbn in Hst.
    unfold status_of in Hst. rewrite Hempty, lookup_empty in Hst.
    by injection Hst as <-.
  - intros k a Ha. apply Hgrow. by rewrite Hsame.
Qed.

Lemma setupPlugins_outcome_witness :
  consistent (echo_discovered (NewRegistry false 0 [])) ∧
  ∃ err pm' logged w',
    setupPlugins echo_env dup_fs (echo_discovered (NewRegistry false 0 [])) []
      = (err, pm', logged, w') ∧
    err = fst (DiscoverPlugins echo_env dup_fs (echo_discovered (NewRegistry false 0 []))) ∧
    (err ≠ None → pm' = echo_discovered (NewRegistry false 0 []) ∧ w' = []) ∧
    logged = [] ∧
    consistent pm' ∧
    (∀ k a, loaded (echo_discovered (NewRegistry false 0 [])) !! k = Some a →
            loaded pm' !! k = Some a).
Proof.
  assert (consistent (echo_discovered (NewRegistry false 0 []))) as Hc.
  { apply record_discovered_consistent; [reflexivity|].
    split; [reflexivity|]. split; [|split].
    - intros k. cbn. rewrite !lookup_empty. split; by intros [? ?].
    - intros k m. cbn. by rewrite lookup_empty.
    - intros k. cbn. rewrite lookup_empty. by intros [? ?]. }
  split; [exact Hc|].
  exact (setupPlugins_outcome echo_env dup_fs
           (echo_discovered (NewRegistry false 0 [])) [] Hc).
Defined.
